(** * Fetch orchestration and identity resolution of the Daraz harvesters

    A shallow embedding of [task/1sep/2sep/category_product_fetch.py] (the
    paginated listing harvest) and [task/1sep/2sep/retrieve_category.py] (the
    category discovery), with the parts of CPython 3.11's [urllib.parse]
    they call.

    Python text is modelled by [string]: the sequence of the bytes of its
    UTF-8 encoding.  Character classes ([str.strip], [str.lower],
    [str.isalpha]) are exact on ASCII text; bytes above 127 are treated as
    caseless, non-blank and non-alphabetic.  Python [int] is [Z], Python
    [float] durations are idealised as rationals ([Q]). *)

From Stdlib Require Import String Ascii List ZArith QArith Lia Bool.
From Stdlib Require Import DecimalString Qminmax Lqa.
From stdpp Require Import base option list gmap sets strings.

Import ListNotations.
Local Open Scope string_scope.

(** ** Python string primitives *)

Module Py.

Definition ord (c : ascii) : nat := nat_of_ascii c.

Definition in_range (lo hi : nat) (c : ascii) : bool :=
  (lo <=? ord c)%nat && (ord c <=? hi)%nat.

(** [str.isspace] on ASCII: TAB..CR, FS..US and the blank. *)
Definition isspace (c : ascii) : bool :=
  in_range 9 13 c || in_range 28 32 c.

Definition isupper (c : ascii) : bool := in_range 65 90 c.
Definition islower (c : ascii) : bool := in_range 97 122 c.
Definition isalpha (c : ascii) : bool := isupper c || islower c.
Definition isdigit (c : ascii) : bool := in_range 48 57 c.
Definition isascii (c : ascii) : bool := (ord c <? 128)%nat.

Definition lower_char (c : ascii) : ascii :=
  if isupper c then ascii_of_nat (ord c + 32) else c.

Fixpoint lower (s : string) : string :=
  match s with
  | EmptyString => EmptyString
  | String c r => String (lower_char c) (lower r)
  end.

Fixpoint rev_onto (s acc : string) : string :=
  match s with
  | EmptyString => acc
  | String c r => rev_onto r (String c acc)
  end.

Definition rev (s : string) : string := rev_onto s EmptyString.

Fixpoint lstrip_by (f : ascii -> bool) (s : string) : string :=
  match s with
  | EmptyString => EmptyString
  | String c r => if f c then lstrip_by f r else s
  end.

Definition rstrip_by (f : ascii -> bool) (s : string) : string :=
  rev (lstrip_by f (rev s)).

Definition strip_by (f : ascii -> bool) (s : string) : string :=
  rstrip_by f (lstrip_by f s).

(** [s.strip()] *)
Definition strip (s : string) : string := strip_by isspace s.

(** [s.replace(c, "")] for a one-character [c]. *)
Fixpoint remove_char (f : ascii -> bool) (s : string) : string :=
  match s with
  | EmptyString => EmptyString
  | String c r => if f c then remove_char f r else String c (remove_char f r)
  end.

(** [s.replace(a, b)] for one-character [a] and [b]. *)
Fixpoint replace_char (a b : ascii) (s : string) : string :=
  match s with
  | EmptyString => EmptyString
  | String c r =>
      String (if Ascii.eqb c a then b else c) (replace_char a b r)
  end.

(** [c in s] *)
Fixpoint contains_char (c : ascii) (s : string) : bool :=
  match s with
  | EmptyString => false
  | String d r => Ascii.eqb d c || contains_char c r
  end.

Fixpoint all_chars (f : ascii -> bool) (s : string) : bool :=
  match s with
  | EmptyString => true
  | String c r => f c && all_chars f r
  end.

(** [s.partition(c)]: the text before the first [c] and the text after
    it, or [None] when [c] does not occur. *)
Fixpoint partition (c : ascii) (s : string) : option (string * string) :=
  match s with
  | EmptyString => None
  | String d r =>
      if Ascii.eqb d c then Some (EmptyString, r)
      else match partition c r with
           | Some (b, a) => Some (String d b, a)
           | None => None
           end
  end.

(** [s.rpartition(c)], same convention. *)
Fixpoint rpartition (c : ascii) (s : string) : option (string * string) :=
  match s with
  | EmptyString => None
  | String d r =>
      match rpartition c r with
      | Some (b, a) => Some (String d b, a)
      | None => if Ascii.eqb d c then Some (EmptyString, r) else None
      end
  end.

(** The longest prefix whose characters fail [f], and the rest. *)
Fixpoint break (f : ascii -> bool) (s : string) : string * string :=
  match s with
  | EmptyString => (EmptyString, EmptyString)
  | String c r =>
      if f c then (EmptyString, s)
      else let '(b, a) := break f r in (String c b, a)
  end.

(** [s.split(c)] *)
Fixpoint split (c : ascii) (s : string) : list string :=
  match s with
  | EmptyString => [EmptyString]
  | String d r =>
      match split c r with
      | [] => [EmptyString]
      | h :: t => if Ascii.eqb d c then EmptyString :: h :: t
                  else String d h :: t
      end
  end.

(** [sep.join(l)] *)
Fixpoint join (sep : string) (l : list string) : string :=
  match l with
  | [] => EmptyString
  | [x] => x
  | x :: r => x ++ sep ++ join sep r
  end.

(** [s.startswith(p)] *)
Fixpoint startswith (s p : string) {struct p} : bool :=
  match p with
  | EmptyString => true
  | String a p' =>
      match s with
      | EmptyString => false
      | String b s' => Ascii.eqb a b && startswith s' p'
      end
  end.

(** [s.endswith(p)] *)
Definition endswith (s p : string) : bool := startswith (rev s) (rev p).

(** [p in s] for text [p]. *)
Fixpoint contains (p s : string) : bool :=
  startswith s p
  || match s with
     | EmptyString => false
     | String _ r => contains p r
     end.

(** [s[n:]] *)
Fixpoint drop (n : nat) (s : string) : string :=
  match n, s with
  | O, _ => s
  | S k, EmptyString => EmptyString
  | S k, String _ r => drop k r
  end.

(** [s[:n]] *)
Fixpoint take (n : nat) (s : string) : string :=
  match n, s with
  | O, _ => EmptyString
  | S k, EmptyString => EmptyString
  | S k, String c r => String c (take k r)
  end.

(** [s[:-1]] *)
Definition drop_last (s : string) : string := take (String.length s - 1) s.

(** [str(n)] for an [int]. *)
Definition str_of_int (z : Z) : string :=
  NilZero.string_of_int (Z.to_int z).

(** The double quote. *)
Definition dq : string := String (ascii_of_nat 34) EmptyString.

(** [int(s)] on text made of ASCII digits; [None] is [ValueError]. *)
Fixpoint int_digits (s : string) (acc : Z) : option Z :=
  match s with
  | EmptyString => Some acc
  | String c r =>
      if isdigit c then int_digits r (10 * acc + Z.of_nat (ord c - 48))
      else None
  end.

Definition int_of_str (s : string) : option Z :=
  match s with
  | EmptyString => None
  | _ => int_digits s 0
  end.

End Py.

(** ** JSON values, as [json.loads] builds them *)

#[local] Set Warnings "-register-all".

Inductive json : Type :=
| JNull
| JBool (b : bool)
| JInt (z : Z)
| JFloat (nonzero : bool) (shown : string)
| JStr (s : string)
| JArr (items : list json)
| JObj (fields : list (string * json)).

(** A [float] is kept as what the code can observe of it: whether it is
    non-zero (its truth value) and the text [str] prints for it.  A [dict]
    is the list of its items in insertion order, every key once. *)

(** The library calls whose full behaviour stays outside the development:
    each is a parameter, and a theorem below holds whatever they do. *)
Class PyLib : Type := {
  (** [json.loads(s)]; [None] when it raises. *)
  json_loads : string -> option json;
  (** [str(v)] for a [list] or a [dict]. *)
  repr_container : json -> string;
  (** [re.search(pat, text, flags=re.IGNORECASE)]: group 1 of the leftmost
      match, [None] without a match. *)
  re_search : string -> string -> option string;
  (** [_check_bracketed_host(hostname)] returns (true) or raises (false). *)
  bracketed_host_ok : string -> bool;
  (** [_checknetloc(netloc)] on a netloc that is not ASCII. *)
  nfkc_netloc_ok : string -> bool
}.

Module Json.

(** [bool(v)] *)
Definition truthy (v : json) : bool :=
  match v with
  | JNull => false
  | JBool b => b
  | JInt z => negb (z =? 0)%Z
  | JFloat nz _ => nz
  | JStr s => negb (String.eqb s "")
  | JArr l => match l with [] => false | _ => true end
  | JObj l => match l with [] => false | _ => true end
  end.

(** [d.get(k)] on the items of a [dict]; a missing key gives [None],
    which is [JNull]. *)
Fixpoint get (k : string) (fields : list (string * json)) : json :=
  match fields with
  | [] => JNull
  | (k', v) :: r => if String.eqb k' k then v else get k r
  end.

(** [k in d] *)
Fixpoint has_key (k : string) (fields : list (string * json)) : bool :=
  match fields with
  | [] => false
  | (k', _) :: r => String.eqb k' k || has_key k r
  end.

(** [str(v)] *)
Definition str `{PyLib} (v : json) : string :=
  match v with
  | JNull => "None"
  | JBool true => "True"
  | JBool false => "False"
  | JInt z => Py.str_of_int z
  | JFloat _ shown => shown
  | JStr s => s
  | JArr _ | JObj _ => repr_container v
  end.

End Json.

(** ** [urllib.parse] (CPython 3.11) *)

Module Urllib.

Definition uses_relative : list string :=
  [""; "ftp"; "http"; "gopher"; "nntp"; "imap"; "wais"; "file"; "https";
   "shttp"; "mms"; "prospero"; "rtsp"; "rtspu"; "sftp"; "svn"; "svn+ssh";
   "ws"; "wss"].

Definition uses_netloc : list string :=
  [""; "ftp"; "http"; "gopher"; "nntp"; "telnet"; "imap"; "wais"; "file";
   "mms"; "https"; "shttp"; "snews"; "prospero"; "rtsp"; "rtspu"; "rsync";
   "svn"; "svn+ssh"; "sftp"; "nfs"; "git"; "git+ssh"; "ws"; "wss"].

Definition uses_params : list string :=
  [""; "ftp"; "hdl"; "prospero"; "http"; "imap"; "https"; "shttp"; "rtsp";
   "rtspu"; "sip"; "sips"; "mms"; "sftp"; "tel"].

Definition mem (s : string) (l : list string) : bool :=
  existsb (String.eqb s) l.

(** [c in scheme_chars] *)
Definition scheme_char (c : ascii) : bool :=
  Py.isalpha c || Py.isdigit c
  || Ascii.eqb c "+" || Ascii.eqb c "-" || Ascii.eqb c ".".

(** [_WHATWG_C0_CONTROL_OR_SPACE] *)
Definition c0_or_space (c : ascii) : bool := (Py.ord c <=? 32)%nat.

(** [_UNSAFE_URL_BYTES_TO_REMOVE] *)
Definition unsafe_byte (c : ascii) : bool :=
  (Py.ord c =? 9)%nat || (Py.ord c =? 13)%nat || (Py.ord c =? 10)%nat.

Record SplitResult : Type := mkSplit {
  s_scheme : string; s_netloc : string; s_path : string;
  s_query : string; s_fragment : string
}.

Record ParseResult : Type := mkParse {
  scheme : string; netloc : string; path : string;
  params : string; query : string; fragment : string
}.

(** [_splitnetloc(url, 2)] *)
Definition splitnetloc (url : string) : string * string :=
  Py.break (fun c => Ascii.eqb c "/" || Ascii.eqb c "?" || Ascii.eqb c "#")
           (Py.drop 2 url).

Section WithLib.
Context `{PyLib}.

(** [_check_bracketed_netloc(netloc)]: true when it returns. *)
Definition check_bracketed_netloc (netloc : string) : bool :=
  let hostname_and_port :=
    match Py.rpartition "@" netloc with
    | Some (_, a) => a
    | None => netloc
    end in
  match Py.partition "[" hostname_and_port with
  | Some (before_bracket, bracketed) =>
      if negb (String.eqb before_bracket "") then false
      else
        let '(hostname, port) :=
          match Py.partition "]" bracketed with
          | Some (h, p) => (h, p)
          | None => (bracketed, "")
          end in
        if negb (String.eqb port "") && negb (Py.startswith port ":")
        then false
        else bracketed_host_ok hostname
  | None =>
      let hostname :=
        match Py.partition ":" hostname_and_port with
        | Some (h, _) => h
        | None => hostname_and_port
        end in
      bracketed_host_ok hostname
  end.

(** [_checknetloc(netloc)]: true when it returns. *)
Definition checknetloc (netloc : string) : bool :=
  if String.eqb netloc "" || Py.all_chars Py.isascii netloc then true
  else nfkc_netloc_ok netloc.

(** The scheme of [url], when it has one, and what follows it:
    [(scheme, url)] after the [if i > 0 and ...] of [urlsplit]. *)
Definition split_scheme (url scheme : string) : string * string :=
  match Py.partition ":" url with
  | Some (String c0 r as pre, post) =>
      if Py.isascii c0 && Py.isalpha c0 && Py.all_chars scheme_char pre
      then (Py.lower pre, post)
      else (scheme, url)
  | _ => (scheme, url)
  end.

(** The end of [urlsplit]: fragment, query and [_checknetloc]. *)
Definition split_tail (scheme netloc url : string) : option SplitResult :=
  let '(url, fragment) :=
    match Py.partition "#" url with
    | Some (u, f) => (u, f)
    | None => (url, "")
    end in
  let '(url, query) :=
    match Py.partition "?" url with
    | Some (u, q) => (u, q)
    | None => (url, "")
    end in
  if checknetloc netloc
  then Some (mkSplit scheme netloc url query fragment)
  else None.

(** [urlsplit(url, scheme)]; [None] is [ValueError]. *)
Definition urlsplit (url scheme : string) : option SplitResult :=
  let url := Py.lstrip_by c0_or_space url in
  let scheme := Py.strip_by c0_or_space scheme in
  let url := Py.remove_char unsafe_byte url in
  let scheme := Py.remove_char unsafe_byte scheme in
  let '(scheme, url) := split_scheme url scheme in
  if Py.startswith url "//" then
    let '(netloc, url) := splitnetloc url in
    let lb := Py.contains_char "[" netloc in
    let rb := Py.contains_char "]" netloc in
    if (lb && negb rb) || (rb && negb lb) then None
    else if lb && rb && negb (check_bracketed_netloc netloc) then None
    else split_tail scheme netloc url
  else split_tail scheme "" url.

(** [_splitparams(url)] *)
Definition splitparams (url : string) : string * string :=
  match Py.rpartition "/" url with
  | Some (dir, last) =>
      match Py.partition ";" last with
      | Some (b, a) => (dir ++ "/" ++ b, a)
      | None => (url, "")
      end
  | None =>
      match Py.partition ";" url with
      | Some (b, a) => (b, a)
      | None => (Py.drop_last url, url)
      end
  end.

(** [urlparse(url, scheme)] *)
Definition urlparse (url scheme : string) : option ParseResult :=
  match urlsplit url scheme with
  | None => None
  | Some r =>
      let '(url, params) :=
        if mem (s_scheme r) uses_params && Py.contains_char ";" (s_path r)
        then splitparams (s_path r)
        else (s_path r, "") in
      Some (mkParse (s_scheme r) (s_netloc r) url params
                    (s_query r) (s_fragment r))
  end.

End WithLib.

(** [urlunsplit((scheme, netloc, url, query, fragment))] *)
Definition urlunsplit (scheme netloc url query fragment : string) : string :=
  let url :=
    if negb (String.eqb netloc "")
       || (negb (String.eqb scheme "") && mem scheme uses_netloc
           && negb (Py.startswith url "//"))
    then
      let url :=
        if negb (String.eqb url "") && negb (Py.startswith url "/")
        then "/" ++ url else url in
      "//" ++ netloc ++ url
    else url in
  let url := if negb (String.eqb scheme "") then scheme ++ ":" ++ url
             else url in
  let url := if negb (String.eqb query "") then url ++ "?" ++ query
             else url in
  if negb (String.eqb fragment "") then url ++ "#" ++ fragment else url.

(** [urlunparse((scheme, netloc, url, params, query, fragment))] *)
Definition urlunparse (scheme netloc url params query fragment : string)
  : string :=
  let url := if negb (String.eqb params "") then url ++ ";" ++ params
             else url in
  urlunsplit scheme netloc url query fragment.

Section WithLib.
Context `{PyLib}.

(** [segments[1:-1] = filter(None, segments[1:-1])] *)
Definition filter_middle (segments : list string) : list string :=
  match segments with
  | [] => []
  | first :: rest =>
      match rest with
      | [] => [first]
      | _ => first
             :: (List.filter (fun s => negb (String.eqb s ""))
                             (removelast rest)
                 ++ [List.last rest ""])%list
      end
  end.

(** The loop of [urljoin] over the segments. *)
Fixpoint resolve (segments resolved_path : list string) : list string :=
  match segments with
  | [] => resolved_path
  | seg :: r =>
      if String.eqb seg ".." then resolve r (removelast resolved_path)
      else if String.eqb seg "." then resolve r resolved_path
      else resolve r (resolved_path ++ [seg])%list
  end.

(** [urljoin(base, url)]; [None] is [ValueError]. *)
Definition urljoin (base url : string) : option string :=
  if String.eqb base "" then Some url
  else if String.eqb url "" then Some base
  else
    match urlparse base "" with
    | None => None
    | Some b =>
        match urlparse url (scheme b) with
        | None => None
        | Some u =>
            if negb (String.eqb (scheme u) (scheme b))
               || negb (mem (scheme u) uses_relative)
            then Some url
            else if mem (scheme u) uses_netloc
                    && negb (String.eqb (netloc u) "")
            then Some (urlunparse (scheme u) (netloc u) (path u)
                                  (params u) (query u) (fragment u))
            else
              let netloc := if mem (scheme u) uses_netloc then netloc b
                            else netloc u in
              if String.eqb (path u) "" && String.eqb (params u) ""
              then
                let query := if String.eqb (query u) "" then query b
                             else query u in
                Some (urlunparse (scheme u) netloc (path b) (params b)
                                 query (fragment u))
              else
                let base_parts := Py.split "/" (path b) in
                let base_parts :=
                  if negb (String.eqb (List.last base_parts "") "")
                  then removelast base_parts else base_parts in
                let segments :=
                  if Py.startswith (path u) "/" then Py.split "/" (path u)
                  else filter_middle
                         (base_parts ++ Py.split "/" (path u))%list in
                let resolved_path := resolve segments [] in
                let resolved_path :=
                  if mem (List.last segments "") ["."; ".."]
                  then (resolved_path ++ [""])%list else resolved_path in
                let joined := Py.join "/" resolved_path in
                Some (urlunparse (scheme u) netloc
                        (if String.eqb joined "" then "/" else joined)
                        (params u) (query u) (fragment u))
        end
    end.

(** [urldefrag(url)[0]] *)
Definition urldefrag (url : string) : option string :=
  if Py.contains_char "#" url then
    match urlparse url "" with
    | None => None
    | Some p => Some (urlunparse (scheme p) (netloc p) (path p)
                                 (params p) (query p) "")
    end
  else Some url.

End WithLib.

Definition hex_value (c : ascii) : option nat :=
  if Py.isdigit c then Some (Py.ord c - 48)
  else if Py.in_range 65 70 c then Some (Py.ord c - 55)
  else if Py.in_range 97 102 c then Some (Py.ord c - 87)
  else None.

(** [unquote(s)], on the bytes: the U+FFFD replacement of an escape
    sequence that is not UTF-8 is left out. *)
Fixpoint unquote (s : string) : string :=
  match s with
  | EmptyString => EmptyString
  | String c t =>
      if Ascii.eqb c "%" then
        match t with
        | String a (String b r) =>
            match hex_value a, hex_value b with
            | Some x, Some y => String (ascii_of_nat (16 * x + y)) (unquote r)
            | _, _ => String c (unquote t)
            end
        | _ => String c (unquote t)
        end
      else String c (unquote t)
  end.

(** [_ALWAYS_SAFE] *)
Definition always_safe (c : ascii) : bool :=
  Py.isalpha c || Py.isdigit c
  || Ascii.eqb c "_" || Ascii.eqb c "." || Ascii.eqb c "-"
  || Ascii.eqb c "~".

Definition hex_digit (n : nat) : ascii :=
  if (n <? 10)%nat then ascii_of_nat (48 + n) else ascii_of_nat (55 + n).

(** [quote_plus(s)] *)
Fixpoint quote_plus (s : string) : string :=
  match s with
  | EmptyString => EmptyString
  | String c r =>
      if always_safe c then String c (quote_plus r)
      else if Ascii.eqb c " " then String "+" (quote_plus r)
      else String "%" (String (hex_digit (Py.ord c / 16))
                         (String (hex_digit (Py.ord c mod 16))
                            (quote_plus r)))
  end.

(** [urlencode(pairs)] over text keys and values. *)
Definition urlencode (pairs : list (string * string)) : string :=
  Py.join "&"
    (List.map (fun kv => quote_plus (fst kv) ++ "=" ++ quote_plus (snd kv))
              pairs).

(** [parse_qsl(qs, keep_blank_values=True)] *)
Definition parse_qsl (qs : string) : list (string * string) :=
  let query_args := if String.eqb qs "" then [] else Py.split "&" qs in
  flat_map
    (fun name_value =>
       if String.eqb name_value "" then []
       else
         let '(n, v) :=
           match Py.partition "=" name_value with
           | Some (n, v) => (n, v)
           | None => (name_value, "")
           end in
         [(unquote (Py.replace_char "+" " " n),
           unquote (Py.replace_char "+" " " v))])
    query_args.

End Urllib.

(** ** Python [dict] with text keys: items in insertion order *)

Module PyDict.

Definition t (V : Type) : Type := list (string * V).

(** [k in d] *)
Fixpoint mem {V} (k : string) (d : t V) : bool :=
  match d with
  | [] => false
  | (k', _) :: r => String.eqb k' k || mem k r
  end.

(** [d.get(k)] *)
Fixpoint get {V} (k : string) (d : t V) : option V :=
  match d with
  | [] => None
  | (k', v) :: r => if String.eqb k' k then Some v else get k r
  end.

(** [d[k] = v]: an existing key keeps its place, a new one goes last. *)
Fixpoint set {V} (k : string) (v : V) (d : t V) : t V :=
  match d with
  | [] => [(k, v)]
  | (k', v') :: r =>
      if String.eqb k' k then (k', v) :: r else (k', v') :: set k v r
  end.

(** [dict(pairs)], also [{k: v for k, v in pairs}] *)
Definition of_pairs {V} (pairs : list (string * V)) : t V :=
  fold_left (fun d kv => set (fst kv) (snd kv) d) pairs [].

Definition keys {V} (d : t V) : list string := List.map fst d.
Definition values {V} (d : t V) : list V := List.map snd d.

Fixpoint insert_sorted {V} (kv : string * V) (l : list (string * V))
  : list (string * V) :=
  match l with
  | [] => [kv]
  | kv' :: r =>
      if String.leb (fst kv) (fst kv') then kv :: l
      else kv' :: insert_sorted kv r
  end.

(** [sorted(d.items())]: the keys differ, so they alone decide. *)
Definition sorted_items {V} (d : t V) : list (string * V) :=
  fold_right insert_sorted [] d.

End PyDict.

(** ** [retrieve_category.py] *)

Module RetrieveCategory.

(** [re.sub(r"/{2,}", "/", path)] *)
Fixpoint collapse_slashes (path : string) : string :=
  match path with
  | EmptyString => EmptyString
  | String c r =>
      if Ascii.eqb c "/" && Py.startswith r "/" then collapse_slashes r
      else String c (collapse_slashes r)
  end.

Definition normalize_path (path : string) : string :=
  if String.eqb path "" then "/"
  else
    let path := collapse_slashes path in
    if (1 <? String.length path)%nat && Py.endswith path "/"
    then Py.drop_last path
    else path.

Definition category_keys : list string :=
  ["categoryId"; "catId"; "catIdLv1"; "cat"].

Definition whitelist : list string :=
  ["categoryId"; "catId"; "catIdLv1"; "cat"].

Definition generic_paths : list string :=
  ["/catalog"; "/search"; "/category"; "/categories"].

Section WithLib.
Context `{PyLib}.

(** [key in payload and str(payload[key]).strip()] *)
Definition gives_fallback (fields : list (string * json)) (key : string)
  : bool :=
  Json.has_key key fields
  && negb (String.eqb (Py.strip (Json.str (Json.get key fields))) "").

(** The [for key in (...)] scan of the decoded [params] payload.  On a
    payload that is not a [dict], [key in payload] or [payload[key]]
    raises, or no key is found: the [except] leaves [None] either way. *)
Fixpoint scan_keys (keys : list string) (fields : list (string * json))
  : option string :=
  match keys with
  | [] => None
  | key :: r =>
      if gives_fallback fields key
      then Some (Py.strip (Json.str (Json.get key fields)))
      else scan_keys r fields
  end.

Definition cat_from_params (qmap : PyDict.t string) : option string :=
  match PyDict.get "params" qmap with
  | Some raw =>
      if String.eqb raw "" then None
      else match json_loads raw with
           | Some (JObj fields) => scan_keys category_keys fields
           | _ => None
           end
  | None => None
  end.

(** [k in whitelist and str(v).strip()] *)
Definition kept_pair (kv : string * string) : bool :=
  Urllib.mem (fst kv) whitelist
  && negb (String.eqb (Py.strip (snd kv)) "").

(** The whitelist loop over [q_pairs]. *)
Definition keep_whitelisted (q_pairs : list (string * string))
  : PyDict.t string :=
  fold_left
    (fun keep kv =>
       if kept_pair kv
       then PyDict.set (fst kv) (Py.strip (snd kv)) keep
       else keep)
    q_pairs [].

(** [keep] after the fallback injection. *)
Definition kept_params (q_pairs : list (string * string))
  : PyDict.t string :=
  let keep := keep_whitelisted q_pairs in
  match cat_from_params (PyDict.of_pairs q_pairs) with
  | Some cat =>
      if negb (existsb (fun k => PyDict.mem k keep) whitelist)
      then PyDict.set "categoryId" cat keep
      else keep
  | None => keep
  end.

(** [canonicalize_category_link(base, href)]: the pair
    [(canonical_url, key)]; [None] when [urllib] raises [ValueError]. *)
Definition canonicalize_category_link (base href : string)
  : option (string * string) :=
  if String.eqb href "" then Some ("", "")
  else
    let href := if Py.startswith href "//" then "https:" ++ href
                else href in
    absolute ← Urllib.urljoin base href;
    absolute ← Urllib.urldefrag absolute;
    p ← Urllib.urlparse absolute "";
    let scheme := if String.eqb (Urllib.scheme p) "" then "https"
                  else Urllib.scheme p in
    let host_lower := Py.lower (Urllib.netloc p) in
    let path_norm :=
      normalize_path (if String.eqb (Urllib.path p) "" then "/"
                      else Urllib.path p) in
    let q_pairs := Urllib.parse_qsl (Urllib.query p) in
    let keep := kept_params q_pairs in
    let is_generic := Urllib.mem path_norm generic_paths in
    let qs :=
      if is_generic && match keep with [] => false | _ => true end
      then Urllib.urlencode (PyDict.sorted_items keep)
      else "" in
    let canonical_url :=
      Urllib.urlunparse scheme host_lower path_norm "" qs "" in
    let host_key := if Py.startswith host_lower "www."
                    then Py.drop 4 host_lower else host_lower in
    let key := host_key ++ path_norm in
    let key := if negb (String.eqb qs "") then key ++ "?" ++ qs
               else key in
    Some (canonical_url, key).

End WithLib.

End RetrieveCategory.

(** ** Exceptions *)

Inductive exn : Type :=
| ValueError
| TypeError
| AttributeError
| UnboundLocalError.

Inductive result (A : Type) : Type :=
| Ok (a : A)
| Raise (e : exn).

Arguments Ok {A} a.
Arguments Raise {A} e.

#[global] Instance result_ret : MRet result := fun _ a => Ok a.

#[global] Instance result_bind : MBind result := fun _ _ k r =>
  match r with
  | Ok a => k a
  | Raise e => Raise e
  end.

Definition of_option {A} (e : exn) (o : option A) : result A :=
  match o with
  | Some a => Ok a
  | None => Raise e
  end.

(** ** The fetch collaborator and the clock, the random source and the
    sleeps, as the code sees them *)

(** One fragment of [crawler.arun]: [html] is [result.html or ""],
    [extracted_content] is [None] when the attribute is. *)
Record CrawlResult : Type := mkCrawlResult {
  success : bool;
  html : string;
  extracted_content : option string
}.

Inductive arun_outcome : Type :=
| ArunRaises
| ArunReturns (results : list CrawlResult).

(** What one attempt meets: the clock when its URL is built, the answer of
    [crawler.arun] to that URL, and the draw of [random.random()] behind
    the one [random.uniform] of the attempt. *)
Record Attempt : Type := mkAttempt {
  now_ms : Z;
  arun : string -> arun_outcome;
  rand : Q
}.

Inductive sleep_kind : Type :=
| BlockCooldown
| Backoff
| PagePause.

Inductive event : Type :=
| EvCrawl (page_idx attempt : Z) (url : string)
| EvSleep (kind : sleep_kind) (seconds : Q)
| EvWrite (path : string) (data : json)
| EvReplace (src dst : string).

Definition is_crawl (e : event) : bool :=
  match e with
  | EvCrawl _ _ _ => true
  | _ => false
  end.

(** The number of calls of [crawl_once] in a trace. *)
Definition crawls (trace : list event) : nat :=
  length (List.filter is_crawl trace).

(** [random.uniform(a, b)] on the draw [u] of [random.random()]. *)
Definition uniform (a b u : Q) : Q := a + (b - a) * u.

(** ** [category_product_fetch.py] *)

Module ProductFetch.

Definition MAX_RETRIES : Z := 5.
Definition MIN_NEW_PER_PAGE : Z := 1.
Definition RETRY_BACKOFF_BASE : Q := 3 # 2.
Definition ADD_CACHE_BUST : bool := true.
Definition SAVE_ONLY_UNIQUE : bool := true.
Definition PRODUCTS_PER_PAGE : Z := 40.
Definition PAGE_PARAM : string := "page".
Definition PAGE_PAUSE_RANGE : Q * Q := (18 # 10, 38 # 10).
Definition ATTEMPT_JITTER : Q := 3 # 10.
Definition BLOCK_COOLDOWN_RANGE : Q * Q := (35 # 1, 75 # 1).

Definition RESULT_DIR : string := "result".
Definition OUTPUT_FILE : string := RESULT_DIR ++ "/products.json".
Definition PAGES_INDEX_FILE : string := RESULT_DIR ++ "/pages_index.json".

Definition BLOCK_KEYWORDS : list string :=
  ["captcha"; "access denied"; "temporarily blocked"; "unusual traffic";
   "robot check"; "verify you are a human"; "request blocked";
   "are you a robot"; "forbidden"; "not allowed";
   "blocked due to unusual activity"].

Definition looks_blocked (html : string) : bool :=
  if String.eqb html "" then false
  else let h := Py.lower html in
       existsb (fun k => Py.contains k h) BLOCK_KEYWORDS.

(** [(product.get(field) or "").strip()]: a value that is true and not
    text has no [strip]. *)
Definition get_stripped (field : string) (fields : list (string * json))
  : result string :=
  let v := Json.get field fields in
  if Json.truthy v then
    match v with
    | JStr s => Ok (Py.strip s)
    | _ => Raise AttributeError
    end
  else Ok "".

(** [sku.split("_", 1)[0]] *)
Definition before_underscore (sku : string) : string :=
  match Py.partition "_" sku with
  | Some (b, _) => b
  | None => sku
  end.

Definition get_product_id (product : json) : result string :=
  match product with
  | JObj fields =>
      pid ← get_stripped "data_item_id" fields;
      if negb (String.eqb pid "") then Ok pid
      else
        sku ← get_stripped "data_sku_simple" fields;
        if negb (String.eqb sku "") then Ok (Py.strip (before_underscore sku))
        else Ok ""
  | _ => Raise AttributeError
  end.

Fixpoint dedupe_loop (products : list json) (seen : gset string)
  : result (list json) :=
  match products with
  | [] => Ok []
  | p :: r =>
      pid ← get_product_id p;
      if String.eqb pid "" then dedupe_loop r seen
      else if bool_decide (pid ∈ seen) then dedupe_loop r seen
      else deduped ← dedupe_loop r ({[pid]} ∪ seen);
           Ok (p :: deduped)
  end.

Definition dedupe_products (products : list json) : result (list json) :=
  dedupe_loop products ∅.

(** [[get_product_id(p) for p in products if get_product_id(p)]] *)
Fixpoint product_ids (products : list json) : result (list string) :=
  match products with
  | [] => Ok []
  | p :: r =>
      pid ← get_product_id p;
      ids ← product_ids r;
      Ok (if String.eqb pid "" then ids else pid :: ids)
  end.

Inductive crawl_outcome : Type :=
| CrawlReturns (products : list json) (ids : list string)
| CrawlBlocked
| CrawlRaises.

Section WithLib.
Context `{PyLib}.

(** [set_query_param(url, key, value)] *)
Definition set_query_param (url key value : string) : result string :=
  p ← of_option ValueError (Urllib.urlparse url "");
  let q := Urllib.parse_qsl (Urllib.query p) in
  let q_dict := PyDict.set key value (PyDict.of_pairs q) in
  let new_query := Urllib.urlencode q_dict in
  Ok (Urllib.urlunparse (Urllib.scheme p) (Urllib.netloc p)
        (Urllib.path p) (Urllib.params p) new_query (Urllib.fragment p)).

Definition build_page_url (base_url : string) (page : Z) : result string :=
  set_query_param base_url PAGE_PARAM (Py.str_of_int page).

(** The loop of [crawl_once] over the fragments:
    [(page_products_aggregated, blocked_detected)]. *)
Fixpoint collect (results : list CrawlResult) (aggregated : list json)
         (blocked_detected : bool) : list json * bool :=
  match results with
  | [] => (aggregated, blocked_detected)
  | res :: r =>
      if negb (success res) then collect r aggregated blocked_detected
      else
        let blocked_detected :=
          if looks_blocked (html res) then true else blocked_detected in
        match extracted_content res with
        | Some text =>
            match json_loads text with
            | Some (JArr items) =>
                collect r (aggregated ++ items) blocked_detected
            | Some data =>
                collect r (aggregated ++ [data]) blocked_detected
            | None => collect r aggregated blocked_detected
            end
        | None => collect r aggregated blocked_detected
        end
  end.

(** [crawl_once], from the answer of [crawler.arun]. *)
Definition crawl_once (answer : arun_outcome) : crawl_outcome :=
  match answer with
  | ArunRaises => CrawlRaises
  | ArunReturns results =>
      let '(aggregated, blocked_detected) := collect results [] false in
      if blocked_detected && match aggregated with [] => true | _ => false end
      then CrawlBlocked
      else
        match dedupe_products aggregated with
        | Raise _ => CrawlRaises
        | Ok deduped =>
            match product_ids deduped with
            | Raise _ => CrawlRaises
            | Ok ids => CrawlReturns deduped ids
            end
        end
  end.

(** The patterns of [parse_total_items_from_html], in order. *)
Definition total_patterns : list string :=
  ["([\d,\.]+)\s*items\s*found";
   Py.dq ++ "totalResults" ++ Py.dq ++ "\s*:\s*(\d+)";
   Py.dq ++ "resultCount" ++ Py.dq ++ "\s*:\s*(\d+)";
   Py.dq ++ "total" ++ Py.dq ++ "\s*:\s*(\d+)";
   "data-total-items\s*=\s*" ++ Py.dq ++ "(\d+)" ++ Py.dq].

(** The [for pat in patterns] loop: a capture that [int] refuses moves
    on to the next pattern. *)
Fixpoint first_total (patterns : list string) (html : string) : Z :=
  match patterns with
  | [] => 0
  | pat :: r =>
      match re_search pat html with
      | Some raw =>
          let clean :=
            Py.remove_char (fun c => Ascii.eqb c ".")
              (Py.remove_char (fun c => Ascii.eqb c ",") raw) in
          match Py.int_of_str clean with
          | Some n => n
          | None => first_total r html
          end
      | None => first_total r html
      end
  end.

Definition parse_total_items_from_html (html : string) : Z :=
  if String.eqb html "" then 0 else first_total total_patterns html.

(** [res.html] of the first fragment that has one. *)
Fixpoint first_html (results : list CrawlResult) : string :=
  match results with
  | [] => ""
  | res :: r => if negb (String.eqb (html res) "") then html res
                else first_html r
  end.

(** [math.ceil(total_items / PRODUCTS_PER_PAGE)] *)
Definition ceil_div (a b : Z) : Z := - ((- a) / b).

(** The last lines of [detect_total_pages], from [total_items] on. *)
Definition pages_of_total (total_items : Z) : Z :=
  if (total_items <=? 0)%Z then 1
  else Z.max 1 (ceil_div total_items PRODUCTS_PER_PAGE).

(** [detect_total_pages(crawler, category_url)] *)
Definition detect_total_pages (w : Attempt) (category_url : string)
  : result Z :=
  url ← (if ADD_CACHE_BUST
         then set_query_param category_url "_v" (Py.str_of_int (now_ms w))
         else Ok category_url);
  match arun w url with
  | ArunRaises => Ok 1%Z
  | ArunReturns results =>
      Ok (pages_of_total (parse_total_items_from_html (first_html results)))
  end.

(** [backoff] of one attempt, before [asyncio.sleep]. *)
Definition backoff_seconds (attempt : Z) (u : Q) : Q :=
  Qmax (1 # 2)
    (RETRY_BACKOFF_BASE * inject_Z (2 ^ (attempt - 1))
     + uniform (- ATTEMPT_JITTER) ATTEMPT_JITTER u).

Definition cooldown_seconds (u : Q) : Q :=
  uniform (fst BLOCK_COOLDOWN_RANGE) (snd BLOCK_COOLDOWN_RANGE) u.

(** [[pid for pid in ids if pid not in known_ids]] *)
Definition new_ids (known_ids : gset string) (ids : list string)
  : list string :=
  List.filter (fun pid => negb (bool_decide (pid ∈ known_ids))) ids.

(** The URL of one attempt. *)
Definition attempt_url (w : Attempt) (base_url : string)
           (add_cache_bust : bool) : result string :=
  if add_cache_bust
  then set_query_param base_url "_v" (Py.str_of_int (now_ms w))
  else Ok base_url.

(** The test that ends the loop: [products] is not empty and
    [len(new_ids) >= min_new]. *)
Definition accepts (known_ids : gset string) (min_new : Z)
           (products : list json) (ids : list string) : bool :=
  match products with [] => false | _ => true end
  && (min_new <=? Z.of_nat (length (new_ids known_ids ids)))%Z.

(** [return products, ids, max_retries] after the loop: a name that
    no attempt assigned is unbound. *)
Definition loop_end (max_retries : Z)
           (locals : option (list json * list string))
  : result (list json * list string * Z) :=
  match locals with
  | Some (products, ids) => Ok (products, ids, max_retries)
  | None => Raise UnboundLocalError
  end.

(** The [for attempt in range(...)] loop of [fetch_until_new]: [todo]
    iterations are left, the next one is number [attempt], and [locals]
    holds [products, ids] once an iteration has assigned them.  The
    events are listed in the order they happen. *)
Fixpoint attempts_loop (world : Z -> Attempt) (base_url : string)
         (known_ids : gset string) (page_idx max_retries min_new : Z)
         (add_cache_bust : bool) (todo : nat) (attempt : Z)
         (locals : option (list json * list string))
  : result (list json * list string * Z) * list event :=
  match todo with
  | O => (loop_end max_retries locals, [])
  | S todo' =>
      let w := world attempt in
      match attempt_url w base_url add_cache_bust with
      | Raise e => (Raise e, [])
      | Ok url =>
          let continue locals sleep :=
            let '(r, trace) :=
              attempts_loop world base_url known_ids page_idx max_retries
                min_new add_cache_bust todo' (attempt + 1) locals in
            (r, EvCrawl page_idx attempt url :: sleep :: trace) in
          let judge products ids :=
            if accepts known_ids min_new products ids
            then (Ok (products, ids, attempt),
                  [EvCrawl page_idx attempt url])
            else continue (Some (products, ids))
                   (EvSleep Backoff (backoff_seconds attempt (rand w))) in
          match crawl_once (arun w url) with
          | CrawlBlocked =>
              continue locals
                (EvSleep BlockCooldown (cooldown_seconds (rand w)))
          | CrawlRaises => judge [] []
          | CrawlReturns products ids => judge products ids
          end
      end
  end.

Definition fetch_until_new (world : Z -> Attempt) (base_url : string)
           (known_ids : gset string) (page_idx max_retries min_new : Z)
           (add_cache_bust : bool)
  : result (list json * list string * Z) * list event :=
  attempts_loop world base_url known_ids page_idx max_retries min_new
    add_cache_bust (Z.to_nat max_retries) 1 None.

(** What one attempt of the loop gets from [crawl_once]; [Raise] when
    its URL cannot be built. *)
Definition attempt_outcome (world : Z -> Attempt) (base_url : string)
           (add_cache_bust : bool) (attempt : Z) : result crawl_outcome :=
  url ← attempt_url (world attempt) base_url add_cache_bust;
  Ok (crawl_once (arun (world attempt) url)).

(** [products, ids] as an attempt that is not a block event assigns
    them. *)
Definition yield (o : crawl_outcome) : option (list json * list string) :=
  match o with
  | CrawlReturns products ids => Some (products, ids)
  | CrawlRaises => Some ([], [])
  | CrawlBlocked => None
  end.

(** The attempt goes round the loop again. *)
Definition retries (known_ids : gset string) (min_new : Z)
           (o : crawl_outcome) : bool :=
  match yield o with
  | Some (products, ids) => negb (accepts known_ids min_new products ids)
  | None => true
  end.

(** *** The run: [demo_css_structured_extraction_no_schema]

    The schema is loaded or generated before anything below and touches
    [schema.json] only; it is left out. *)

(** What the run meets: the attempt of the planner, the attempts of
    every page, and the draw behind the pause after every page. *)
Record World : Type := mkWorld {
  planner : Attempt;
  page_world : Z -> Z -> Attempt;
  page_rand : Z -> Q
}.

Record Harvest : Type := mkHarvest {
  known_ids : gset string;
  all_products_by_id : PyDict.t json;
  pages_index : json;
  total_new_added : Z;
  disk : gmap string json;
  log : list event
}.

(** A run that got to its end, or the exception that stopped it with
    the files and the events it left behind. *)
Inductive run : Type :=
| Finished (st : Harvest)
| Crashed (e : exn) (files : gmap string json) (events : list event).

Definition logged (evs : list event) (st : Harvest) : Harvest :=
  mkHarvest (known_ids st) (all_products_by_id st) (pages_index st)
            (total_new_added st) (disk st) (log st ++ evs).

(** [atomic_write_json(path, data)]: write the sibling [.tmp], then
    [os.replace] it over [path]. *)
Definition written (path : string) (data : json) (d : gmap string json)
  : gmap string json :=
  let tmp := path ++ ".tmp" in
  <[path := data]> (delete tmp (<[tmp := data]> d)).

Definition atomic_write_json (path : string) (data : json) (st : Harvest)
  : Harvest :=
  let tmp := path ++ ".tmp" in
  mkHarvest (known_ids st) (all_products_by_id st) (pages_index st)
            (total_new_added st) (written path data (disk st))
            (log st ++ [EvWrite tmp data; EvReplace tmp path]).

(** [load_json_if_exists(path, default)] *)
Definition load_json_if_exists (path : string) (default : json)
           (d : gmap string json) : json :=
  match d !! path with
  | Some v => v
  | None => default
  end.

(** [{pid: p for p in existing_products_list if (pid := get_product_id(p))}] *)
Fixpoint index_products (products : list json) (d : PyDict.t json)
  : result (PyDict.t json) :=
  match products with
  | [] => Ok d
  | p :: r =>
      pid ← get_product_id p;
      index_products r (if String.eqb pid "" then d else PyDict.set pid p d)
  end.

(** The [for p in products] loop that merges one page:
    [(known_ids, all_products_by_id, page_new_products)]. *)
Fixpoint merge_page (products : list json) (known : gset string)
         (store : PyDict.t json) (page_new : list json)
  : result (gset string * PyDict.t json * list json) :=
  match products with
  | [] => Ok (known, store, page_new)
  | p :: r =>
      pid ← get_product_id p;
      if negb (String.eqb pid "") && negb (bool_decide (pid ∈ known))
      then merge_page r ({[pid]} ∪ known) (PyDict.set pid p store)
                      (page_new ++ [p])
      else merge_page r known store page_new
  end.

(** [known_ids] and the store go together: the known identities are
    the keys of the store, each of them once. *)
Definition store_ok (known : gset string) (store : PyDict.t json) : Prop :=
  known = list_to_set (PyDict.keys store) /\ NoDup (PyDict.keys store).

(** [pages_index[key] = ids] *)
Definition index_set (index : json) (key : string) (ids : list string)
  : result json :=
  match index with
  | JObj fields => Ok (JObj (PyDict.set key (JArr (List.map JStr ids)) fields))
  | _ => Raise TypeError
  end.

Definition page_file (page_idx : Z) : string :=
  RESULT_DIR ++ "/page_" ++ Py.str_of_int page_idx ++ ".json".

Definition page_pause (u : Q) : Q :=
  uniform (fst PAGE_PAUSE_RANGE) (snd PAGE_PAUSE_RANGE) u.

(** One turn of the [for page_idx, base_url in enumerate(urls, start=1)]
    loop. *)
Definition page_step (w : World) (page_idx : Z) (base_url : string)
           (st : Harvest) : run :=
  let '(r, trace) :=
    fetch_until_new (page_world w page_idx) base_url (known_ids st)
      page_idx MAX_RETRIES MIN_NEW_PER_PAGE ADD_CACHE_BUST in
  let st := logged trace st in
  match r with
  | Raise e => Crashed e (disk st) (log st)
  | Ok (products, ids, attempts_used) =>
      match products with
      | [] =>
          Finished
            (logged [EvSleep PagePause
                       (page_pause (page_rand w page_idx) + (3 # 2))] st)
      | _ =>
          match merge_page products (known_ids st)
                           (all_products_by_id st) [] with
          | Raise e => Crashed e (disk st) (log st)
          | Ok (known, store, page_new_products) =>
              let st := mkHarvest known store (pages_index st)
                          (total_new_added st) (disk st) (log st) in
              match index_set (pages_index st)
                              (Py.str_of_int page_idx) ids with
              | Raise e => Crashed e (disk st) (log st)
              | Ok index =>
                  let st := mkHarvest known store index
                              (total_new_added st) (disk st) (log st) in
                  let to_save_page :=
                    if SAVE_ONLY_UNIQUE then page_new_products
                    else products in
                  let st :=
                    match to_save_page with
                    | [] => st
                    | _ =>
                        let st := atomic_write_json (page_file page_idx)
                                    (JArr to_save_page) st in
                        mkHarvest (known_ids st) (all_products_by_id st)
                          (pages_index st)
                          (total_new_added st
                           + Z.of_nat (length page_new_products))
                          (disk st) (log st)
                    end in
                  Finished
                    (logged [EvSleep PagePause
                               (page_pause (page_rand w page_idx))] st)
              end
          end
      end
  end.

(** The page loop over [urls], the next page being number [page_idx]. *)
Fixpoint pages_loop (w : World) (urls : list string) (page_idx : Z)
         (st : Harvest) : run :=
  match urls with
  | [] => Finished st
  | base_url :: r =>
      match page_step w page_idx base_url st with
      | Finished st' => pages_loop w r (page_idx + 1) st'
      | Crashed e files events => Crashed e files events
      end
  end.

(** [[build_page_url(link, page) for page in range(1, total_pages + 1)]] *)
Fixpoint page_urls (link : string) (pages : list Z) : result (list string) :=
  match pages with
  | [] => Ok []
  | page :: r =>
      url ← build_page_url link page;
      urls ← page_urls link r;
      Ok (url :: urls)
  end.

(** [range(1, n + 1)] *)
Definition range1 (n : Z) : list Z :=
  List.map Z.of_nat (List.seq 1 (Z.to_nat n)).

(** The run up to the page loop: the store and the index are loaded
    and the pages planned. *)
Definition start (w : World) (link : string) (disk0 : gmap string json)
  : result (Harvest * list string) :=
  let existing_products_list :=
    match load_json_if_exists OUTPUT_FILE (JArr []) disk0 with
    | JArr l => l
    | _ => []
    end in
  store ← index_products existing_products_list [];
  let known : gset string := list_to_set (PyDict.keys store) in
  let index := load_json_if_exists PAGES_INDEX_FILE (JObj []) disk0 in
  total_pages ← detect_total_pages (planner w) link;
  urls ← page_urls link (range1 total_pages);
  Ok (mkHarvest known store index 0 disk0 [], urls).

(** The run after the first [n] turns of the page loop. *)
Definition after_pages (w : World) (link : string)
           (disk0 : gmap string json) (n : nat) : run :=
  match start w link disk0 with
  | Raise e => Crashed e disk0 []
  | Ok (st, urls) => pages_loop w (List.firstn n urls) 1 st
  end.

(** The two writes after the loop. *)
Definition final_writes (st : Harvest) : Harvest :=
  let all_products_unique := PyDict.values (all_products_by_id st) in
  atomic_write_json PAGES_INDEX_FILE (pages_index st)
    (atomic_write_json OUTPUT_FILE (JArr all_products_unique) st).

(** The whole run. *)
Definition harvest (w : World) (link : string) (disk0 : gmap string json)
  : run :=
  match start w link disk0 with
  | Raise e => Crashed e disk0 []
  | Ok (st, urls) =>
      match pages_loop w urls 1 st with
      | Finished st' => Finished (final_writes st')
      | Crashed e files events => Crashed e files events
      end
  end.

End WithLib.

End ProductFetch.


(** ** [retrieve_category.py]: the discovery of categories *)

Module CategoryDiscovery.
Import RetrieveCategory.

Definition RESULT_DIR : string := "category_result".
Definition CATEGORIES_FILE : string := RESULT_DIR ++ "/categories.json".
Definition HOMEPAGE_URL : string := "https://www.daraz.com.bd/".
Definition MAX_REFRESHES : Z := 40.
Definition STOP_AFTER_NO_NEW_STREAK : Z := 8.
Definition ADD_CACHE_BUST : bool := true.

(** The [dict] [{"category_name": ..., "category_link": ...}]. *)
Record Category : Type := mkCategory {
  category_name : string;
  category_link : string
}.

Definition category_json (c : Category) : json :=
  JObj [("category_name", JStr (category_name c));
        ("category_link", JStr (category_link c))].

(** [[x for x in l if isinstance(x, dict)]] *)
Definition only_dicts (l : list json) : list json :=
  List.filter (fun x => match x with JObj _ => true | _ => false end) l.

Definition coerce_keys : list string :=
  ["items"; "data"; "categories"; "list"; "results"].

(** The first of [keys] whose value is a [list]. *)
Fixpoint first_list (keys : list string) (fields : list (string * json))
  : option (list json) :=
  match keys with
  | [] => None
  | key :: r =>
      match Json.get key fields with
      | JArr v => Some v
      | _ => first_list r fields
      end
  end.

Definition coerce_items (parsed : json) : list json :=
  match parsed with
  | JArr l => only_dicts l
  | JObj fields =>
      match first_list coerce_keys fields with
      | Some v => only_dicts v
      | None => [parsed]
      end
  | _ => []
  end.

(** [item.get(k1) or item.get(k2) or ... or ""] *)
Fixpoint first_truthy (keys : list string) (fields : list (string * json))
  : json :=
  match keys with
  | [] => JStr ""
  | key :: r =>
      if Json.truthy (Json.get key fields) then Json.get key fields
      else first_truthy r fields
  end.

(** A method of [str] called on [v]: only text has it. *)
Definition as_text (v : json) : result string :=
  match v with
  | JStr s => Ok s
  | _ => Raise AttributeError
  end.

Section WithLib.
Context `{PyLib}.

(** [canonicalize_category_link(base, href)] on whatever [href] is: text
    goes through, anything else that counts as true has no [startswith]. *)
Definition canonicalize_value (base : string) (href : json)
  : result (string * string) :=
  s ← as_text href;
  of_option ValueError (canonicalize_category_link base s).

(** [canonical_category_record(base, item)]; [None] is [({}, "")]. *)
Definition canonical_category_record (base : string) (item : json)
  : result (option (Category * string)) :=
  match item with
  | JObj fields =>
      name ← as_text (first_truthy ["category_name"; "name"; "title"] fields);
      let name := Py.strip name in
      let href := first_truthy ["category_link"; "link"; "url"] fields in
      '(canonical, key) ← canonicalize_value base href;
      if String.eqb name "" || String.eqb canonical "" || String.eqb key ""
      then Ok None
      else Ok (Some (mkCategory name canonical, key))
  | _ => Raise AttributeError
  end.

(** [dedupe_by_key(records)] *)
Fixpoint dedupe_loop (records : list (Category * string)) (seen : gset string)
  : list Category :=
  match records with
  | [] => []
  | (rec, key) :: r =>
      if String.eqb key "" || bool_decide (key ∈ seen) then dedupe_loop r seen
      else rec :: dedupe_loop r ({[key]} ∪ seen)
  end.

Definition dedupe_by_key (records : list (Category * string))
  : list Category :=
  dedupe_loop records ∅.

(** The [for it in items] loop of [crawl_categories_once]. *)
Fixpoint records_of (base : string) (items : list json)
  : result (list (Category * string)) :=
  match items with
  | [] => Ok []
  | it :: r =>
      rec ← canonical_category_record base it;
      recs ← records_of base r;
      Ok (match rec with
          | Some rk => rk :: recs
          | None => recs
          end)
  end.

(** The [for res_idx, res in enumerate(results)] loop. *)
Fixpoint collect_records (url : string) (results : list CrawlResult)
  : result (list (Category * string)) :=
  match results with
  | [] => Ok []
  | res :: r =>
      if negb (success res) then collect_records url r
      else
        match extracted_content res ≫= json_loads with
        | None => collect_records url r
        | Some parsed =>
            recs ← records_of url (coerce_items parsed);
            more ← collect_records url r;
            Ok (recs ++ more)%list
        end
  end.

(** [crawl_categories_once], from the answer of [crawler.arun]; [None]
    when it raises, whatever the exception. *)
Definition crawl_categories_once (answer : arun_outcome) (url : string)
  : option (list Category) :=
  match answer with
  | ArunRaises => None
  | ArunReturns results =>
      match collect_records url results with
      | Ok recs => Some (dedupe_by_key recs)
      | Raise _ => None
      end
  end.

(** What one refresh meets: the clock, the draw of [random.randint], the
    answer of [crawler.arun], and the draw behind the pause. *)
Record Refresh : Type := mkRefresh {
  r_now_ms : Z;
  r_randint : Z;
  r_arun : string -> arun_outcome;
  r_rand : Q
}.

Record Discovery : Type := mkDiscovery {
  known : PyDict.t Category;
  new_total : Z;
  no_new_streak : Z;
  files : gmap string json;
  trace : list event
}.

Inductive step : Type :=
| Next (st : Discovery)
| Stopped (st : Discovery)
| Failed (e : exn) (disk : gmap string json) (events : list event).

(** The cache-busted URL of a refresh. *)
Definition refresh_url (home_url : string) (w : Refresh) : string :=
  if ADD_CACHE_BUST then
    let sep := if Py.contains_char "?" home_url then "&" else "?" in
    home_url ++ sep ++ "_v=" ++ Py.str_of_int (r_now_ms w)
    ++ "&r=" ++ Py.str_of_int (r_randint w)
  else home_url.

(** The [for it in items] loop of a refresh: [(known, fresh)]. *)
Fixpoint absorb (home_url : string) (items : list Category)
         (known : PyDict.t Category) (fresh : list Category)
  : result (PyDict.t Category * list Category) :=
  match items with
  | [] => Ok (known, fresh)
  | it :: r =>
      '(canonical, key) ←
        of_option ValueError
          (canonicalize_category_link home_url (category_link it));
      if PyDict.mem key known then absorb home_url r known fresh
      else
        let c := mkCategory (category_name it) canonical in
        absorb home_url r (PyDict.set key c known) (fresh ++ [c])
  end.

Definition refresh_file (attempt : Z) : string :=
  RESULT_DIR ++ "/refresh_" ++ Py.str_of_int attempt ++ ".json".

Definition categories_json (cs : list Category) : json :=
  JArr (List.map category_json cs).

(** [atomic_write_json(path, data)] of this file, as in the harvest. *)
Definition write (path : string) (data : json) (st : Discovery) : Discovery :=
  mkDiscovery (known st) (new_total st) (no_new_streak st)
    (ProductFetch.written path data (files st))
    (trace st ++ [EvWrite (path ++ ".tmp") data;
                  EvReplace (path ++ ".tmp") path]).

(** [items] of a refresh: what [crawl_categories_once] returns, nothing
    when it raises. *)
Definition refresh_items (w : Refresh) (home_url : string) : list Category :=
  let url := refresh_url home_url w in
  match crawl_categories_once (r_arun w url) url with
  | Some items => items
  | None => []
  end.

(** One turn of the [for attempt in range(1, refreshes + 1)] loop. *)
Definition refresh_step (w : Refresh) (home_url : string) (attempt : Z)
           (st : Discovery) : step :=
  let url := refresh_url home_url w in
  let items := refresh_items w home_url in
  let crawled := (trace st ++ [EvCrawl 0 attempt url])%list in
  match absorb home_url items (known st) [] with
  | Raise e => Failed e (files st) crawled
  | Ok (known', fresh) =>
      let st :=
        match fresh with
        | [] =>
            mkDiscovery known' (new_total st) (no_new_streak st + 1)
              (files st) crawled
        | _ =>
            write (refresh_file attempt) (categories_json fresh)
              (mkDiscovery known' (new_total st + Z.of_nat (length fresh)) 0
                 (files st) crawled)
        end in
      let st := write CATEGORIES_FILE (categories_json (PyDict.values (known st)))
                  st in
      if (STOP_AFTER_NO_NEW_STREAK <=? no_new_streak st)%Z then Stopped st
      else
        Next (mkDiscovery (known st) (new_total st) (no_new_streak st)
                (files st)
                (trace st
                 ++ [EvSleep PagePause ((8 # 10) + r_rand w * (6 # 10))]))
  end.

(** The loop, [todo] turns being left and the next one number [attempt]. *)
Fixpoint refresh_loop (world : Z -> Refresh) (home_url : string)
         (todo : nat) (attempt : Z) (st : Discovery) : step :=
  match todo with
  | O => Stopped st
  | S todo' =>
      match refresh_step (world attempt) home_url attempt st with
      | Next st' => refresh_loop world home_url todo' (attempt + 1) st'
      | other => other
      end
  end.

(** The [for rec in existing] loop that rebuilds [known] from the file. *)
Fixpoint reload (home_url : string) (existing : list json)
         (known : PyDict.t Category) : result (PyDict.t Category) :=
  match existing with
  | [] => Ok known
  | rec :: r =>
      match rec with
      | JObj fields =>
          let link := if Json.truthy (Json.get "category_link" fields)
                      then Json.get "category_link" fields else JStr "" in
          name ← as_text (if Json.truthy (Json.get "category_name" fields)
                          then Json.get "category_name" fields else JStr "");
          let name := Py.strip name in
          if negb (Json.truthy link) || String.eqb name ""
          then reload home_url r known
          else
            '(canonical, key) ← canonicalize_value home_url link;
            if negb (String.eqb canonical "") && negb (String.eqb key "")
               && negb (PyDict.mem key known)
            then reload home_url r
                   (PyDict.set key (mkCategory name canonical) known)
            else reload home_url r known
      | _ => Raise AttributeError
      end
  end.

(** [collect_categories_multiple_refreshes(home_url, refreshes)], after
    the schema is there. *)
Definition collect_categories_multiple_refreshes
           (world : Z -> Refresh) (home_url : string) (refreshes : Z)
           (disk0 : gmap string json) : step :=
  let existing :=
    match disk0 !! CATEGORIES_FILE with
    | Some (JArr l) => Some l
    | Some _ => None
    | None => Some []
    end in
  match reload home_url (default [] existing) [] with
  | Raise e => Failed e disk0 []
  | Ok known0 =>
      refresh_loop world home_url (Z.to_nat refreshes) 1
        (mkDiscovery known0 0 0 disk0 [])
  end.

End WithLib.

End CategoryDiscovery.

(** ** Notions the properties are stated with *)

Module Notions.
Import ProductFetch.

(** The value of [field] counts as true and is not text: it has no
    [strip]. *)
Definition unstrippable (field : string) (fields : list (string * json))
  : bool :=
  Json.truthy (Json.get field fields)
  && match Json.get field fields with
     | JStr _ => false
     | _ => true
     end.

(** [pid] is the identity of [p], and it is not empty. *)
Definition has_id (p : json) (pid : string) : Prop :=
  get_product_id p = Ok pid /\ pid <> "".

(** [products, ids] as [crawl_once] builds them: the identities of the
    records, one each, none empty and none twice. *)
Definition well_formed (products : list json) (ids : list string) : Prop :=
  Forall2 has_id products ids /\ NoDup ids.

(** The text [urlencode] makes of one pair. *)
Definition encoded_pair (kv : string * string) : string :=
  Urllib.quote_plus (fst kv) ++ "=" ++ Urllib.quote_plus (snd kv).

(** The normal form of a path: not empty, no run of slashes, and no slash
    at the end unless it is the root. *)
Definition normal_path (path : string) : Prop :=
  path <> ""
  /\ Py.contains "//" path = false
  /\ (Py.endswith path "/" = true -> path = "/").

(** What the page loop keeps from [st] to [st']: the store is well
    formed, no record is replaced, and the counter of new records follows
    the size of the store. *)
Definition grown (st st' : Harvest) : Prop :=
  store_ok (known_ids st') (all_products_by_id st')
  /\ (forall pid r, PyDict.get pid (all_products_by_id st) = Some r ->
                    PyDict.get pid (all_products_by_id st') = Some r)
  /\ (Z.of_nat (length (all_products_by_id st')) - total_new_added st'
      = Z.of_nat (length (all_products_by_id st)) - total_new_added st)%Z.

(** The categories file holds the categories the run knows. *)
Definition persisted (st : CategoryDiscovery.Discovery) : Prop :=
  CategoryDiscovery.files st !! CategoryDiscovery.CATEGORIES_FILE
  = Some (CategoryDiscovery.categories_json
            (PyDict.values (CategoryDiscovery.known st))).

(** From [st] to [st'] the known categories only grow: each key keeps
    its category, the keys stay distinct, and [new_total] counts the
    additions. *)
Definition extends (st st' : CategoryDiscovery.Discovery) : Prop :=
  (forall key c, PyDict.get key (CategoryDiscovery.known st) = Some c ->
                 PyDict.get key (CategoryDiscovery.known st') = Some c)
  /\ (NoDup (PyDict.keys (CategoryDiscovery.known st)) ->
      NoDup (PyDict.keys (CategoryDiscovery.known st')))
  /\ (Z.of_nat (length (CategoryDiscovery.known st'))
       - CategoryDiscovery.new_total st'
      = Z.of_nat (length (CategoryDiscovery.known st))
        - CategoryDiscovery.new_total st)%Z.

End Notions.

(** ** Concrete inputs for the examples *)

Module Sample.
Import ProductFetch.

Definition item (pid : string) : json := JObj [("data_item_id", JStr pid)].

(** The JSON text of [item pid]: [{"data_item_id": "pid"}]. *)
Definition item_text (pid : string) : string :=
  "{" ++ Py.dq ++ "data_item_id" ++ Py.dq ++ ": "
  ++ Py.dq ++ pid ++ Py.dq ++ "}".

(** The JSON text of the list of the items of [pids]. *)
Definition items_text (pids : list string) : string :=
  "[" ++ Py.join ", " (List.map item_text pids) ++ "]".

(** [{"catId": 7}] *)
Definition params_text : string :=
  "{" ++ Py.dq ++ "catId" ++ Py.dq ++ ": 7}".

(** The texts the examples decode, each with its value. *)
Definition decoded : list (string * json) :=
  [(items_text ["A"; "B"], JArr [item "A"; item "B"]);
   (items_text ["A"; "C"], JArr [item "A"; item "C"]);
   (items_text ["A"], JArr [item "A"]);
   (items_text ["B"], JArr [item "B"]);
   (params_text, JObj [("catId", JInt 7)])].

(** A library that knows these texts and the one total of
    ["41 items found"], and refuses the rest. *)
#[export] Instance lib : PyLib := {|
  json_loads := fun s => PyDict.get s decoded;
  repr_container := fun _ => "";
  re_search := fun pat text =>
    if String.eqb pat "([\d,\.]+)\s*items\s*found"
       && String.eqb text "41 items found"
    then Some "41" else None;
  bracketed_host_ok := fun _ => false;
  nfkc_netloc_ok := fun _ => false
|}.

Definition page (markup : string) (pids : list string) : arun_outcome :=
  ArunReturns [mkCrawlResult true markup (Some (items_text pids))].

Definition base_url : string := "https://www.daraz.com.bd/hoses-pipes/?page=1".

(** First a page of known items, then one with a new item. *)
Definition stale_then_fresh (attempt : Z) : Attempt :=
  mkAttempt (1000 + attempt)
    (fun _ => if (attempt <=? 1)%Z then page "<html>" ["A"; "B"]
              else page "<html>" ["A"; "C"])
    (1 # 2).

(** Always the same page of known items. *)
Definition always_stale (attempt : Z) : Attempt :=
  mkAttempt (1000 + attempt) (fun _ => page "<html>" ["A"; "B"]) (1 # 2).

(** Always a bot-defence page with nothing extracted. *)
Definition always_blocked (attempt : Z) : Attempt :=
  mkAttempt (1000 + attempt)
    (fun _ => ArunReturns [mkCrawlResult true "<h1>Access Denied</h1>" None])
    (1 # 2).

(** Always an answer without fragments. *)
Definition always_empty (attempt : Z) : Attempt :=
  mkAttempt (1000 + attempt) (fun _ => ArunReturns []) (1 # 2).

(** The listing says 41 items, so two pages: the first shows A, the
    second B. *)
Definition two_pages : World :=
  mkWorld
    (mkAttempt 1000
       (fun _ => ArunReturns [mkCrawlResult true "41 items found" None])
       (1 # 2))
    (fun page_idx attempt =>
       mkAttempt (1000 + attempt)
         (fun _ => if (page_idx <=? 1)%Z then page "<html>" ["A"]
                   else page "<html>" ["B"])
         (1 # 2))
    (fun _ => 1 # 2).

Definition link : string := "https://www.daraz.com.bd/hoses-pipes/".

(** Two captures of the identity A that differ in another field. *)
Definition first_capture : json :=
  JObj [("data_item_id", JStr "A"); ("price", JStr "100")].

Definition second_capture : json :=
  JObj [("data_item_id", JStr "A"); ("price", JStr "90")].

End Sample.

(** ** Concrete inputs for the discovery *)

Module SampleCategories.
Import CategoryDiscovery.

(** [[{"category_name": "Sanders", "category_link": "/sanders?ref=123"}]] *)
Definition tile_text : string :=
  "[{" ++ Py.dq ++ "category_name" ++ Py.dq ++ ": "
  ++ Py.dq ++ "Sanders" ++ Py.dq ++ ", "
  ++ Py.dq ++ "category_link" ++ Py.dq ++ ": "
  ++ Py.dq ++ "/sanders?ref=123" ++ Py.dq ++ "}]".

Definition tile : json :=
  JArr [JObj [("category_name", JStr "Sanders");
              ("category_link", JStr "/sanders?ref=123")]].

(** A library that knows this one text. *)
Definition lib : PyLib := {|
  json_loads := fun s => if String.eqb s tile_text then Some tile else None;
  repr_container := fun _ => "";
  re_search := fun _ _ => None;
  bracketed_host_ok := fun _ => false;
  nfkc_netloc_ok := fun _ => false
|}.

(** Every refresh shows the one tile. *)
Definition one_tile (attempt : Z) : Refresh :=
  mkRefresh (1000 + attempt) 1234
    (fun _ => ArunReturns [mkCrawlResult true "<html>" (Some tile_text)])
    (1 # 2).

(** Every refresh fails in the collaborator. *)
Definition idle (attempt : Z) : Refresh :=
  mkRefresh (1000 + attempt) 1234 (fun _ => ArunRaises) (1 # 2).

Definition sanders : Category :=
  mkCategory "Sanders" "https://www.daraz.com.bd/sanders".

End SampleCategories.

(** * Properties *)

#[local] Set Warnings "-clear-no-such-hyp".

(** ** The fetch-until-new engine *)

Section Engine.
Import ProductFetch.
Context `{PyLib}.
Variables (world : Z -> Attempt) (base_url : string).
Variables (known : gset string) (page_idx max_retries min_new : Z).
Variable add_cache_bust : bool.

Abbreviation loop := (attempts_loop world base_url known page_idx max_retries
                    min_new add_cache_bust).
Abbreviation outcome := (attempt_outcome world base_url add_cache_bust).

Lemma outcome_inv attempt o :
  outcome attempt = Ok o ->
  exists url,
    attempt_url (world attempt) base_url add_cache_bust = Ok url
    /\ crawl_once (arun (world attempt) url) = o.
Proof.
  unfold attempt_outcome.
  destruct (attempt_url _ _ _) as [url|e]; simpl; [|discriminate].
  intros [= <-]. by exists url.
Qed.

Lemma accepts_nil ids : accepts known min_new [] ids = false.
Proof. reflexivity. Qed.

(** An accepted attempt ends the loop with what it collected. *)
Lemma loop_accept todo attempt locals products ids :
  outcome attempt = Ok (CrawlReturns products ids) ->
  accepts known min_new products ids = true ->
  exists url,
    attempt_url (world attempt) base_url add_cache_bust = Ok url
    /\ loop (S todo) attempt locals
       = (Ok (products, ids, attempt), [EvCrawl page_idx attempt url]).
Proof.
  intros Ho Ha. destruct (outcome_inv _ _ Ho) as (url & Hu & Hc).
  exists url. split; [done|]. simpl. rewrite Hu, Hc, Ha. done.
Qed.

(** Any other attempt sleeps and hands over to the next one. *)
Lemma loop_retry todo attempt locals o :
  outcome attempt = Ok o ->
  retries known min_new o = true ->
  exists url sleep,
    attempt_url (world attempt) base_url add_cache_bust = Ok url
    /\ sleep = match o with
               | CrawlBlocked =>
                   EvSleep BlockCooldown
                     (cooldown_seconds (rand (world attempt)))
               | _ => EvSleep Backoff
                        (backoff_seconds attempt (rand (world attempt)))
               end
    /\ loop (S todo) attempt locals
       = (let next := loop todo (attempt + 1)
                        (match yield o with
                         | Some l => Some l
                         | None => locals
                         end) in
          (fst next, EvCrawl page_idx attempt url :: sleep :: snd next)).
Proof.
  intros Ho Hr. destruct (outcome_inv _ _ Ho) as (url & Hu & Hc).
  exists url. eexists. split; [done|]. split; [reflexivity|].
  simpl attempts_loop. rewrite Hu, Hc.
  destruct o as [products ids| |]; unfold retries in Hr; simpl in Hr |- *.
  - apply negb_true_iff in Hr. rewrite Hr.
    by destruct (attempts_loop _ _ _ _ _ _ _ _ _ _).
  - by destruct (attempts_loop _ _ _ _ _ _ _ _ _ _).
  - by destruct (attempts_loop _ _ _ _ _ _ _ _ _ _).
Qed.

Lemma crawls_cons_crawl p a u t :
  crawls (EvCrawl p a u :: t) = S (crawls t).
Proof. reflexivity. Qed.

Lemma crawls_cons_sleep k q t : crawls (EvSleep k q :: t) = crawls t.
Proof. reflexivity. Qed.

(** [m] attempts that go round, then one that is accepted. *)
Lemma loop_until_accept m : forall todo attempt locals products ids,
  (forall j, attempt <= j < attempt + Z.of_nat m ->
     exists o, outcome j = Ok o /\ retries known min_new o = true)%Z ->
  outcome (attempt + Z.of_nat m) = Ok (CrawlReturns products ids) ->
  accepts known min_new products ids = true ->
  fst (loop (m + S todo) attempt locals)
    = Ok (products, ids, (attempt + Z.of_nat m)%Z)
  /\ crawls (snd (loop (m + S todo) attempt locals)) = S m.
Proof.
  induction m as [|m IH]; intros todo attempt locals products ids Hr Ho Ha.
  - replace (attempt + Z.of_nat 0)%Z with attempt in * by lia.
    rewrite Nat.add_0_l.
    destruct (loop_accept todo attempt locals _ _ Ho Ha) as (url & _ & ->).
    done.
  - destruct (Hr attempt) as (o & Hoa & Hra); [lia|].
    destruct (loop_retry (m + S todo) attempt locals o Hoa Hra)
      as (url & sleep & _ & Hs & Hl).
    change (S m + S todo) with (S (m + S todo)). rewrite Hl. cbv zeta. cbn [fst snd]. rewrite crawls_cons_crawl.
    replace (crawls (sleep :: _)) with
      (crawls (snd (loop (m + S todo) (attempt + 1)
                      match yield o with Some l => Some l | None => locals end)))
      by (subst sleep; by destruct o).
    replace (attempt + Z.of_nat (S m))%Z
      with (attempt + 1 + Z.of_nat m)%Z in * by lia.
    destruct (IH todo (attempt + 1)%Z
                match yield o with Some l => Some l | None => locals end
                products ids) as [-> ->]; try done.
    intros j Hj. apply Hr. lia.
Qed.

(** Block events only: the locals stay as they were. *)
Lemma loop_all_blocked m : forall attempt locals,
  (forall j, attempt <= j < attempt + Z.of_nat m ->
     outcome j = Ok CrawlBlocked)%Z ->
  fst (loop m attempt locals) = loop_end max_retries locals
  /\ crawls (snd (loop m attempt locals)) = m.
Proof.
  induction m as [|m IH]; intros attempt locals Hb; [done|].
  assert (Hoa : outcome attempt = Ok CrawlBlocked) by (apply Hb; lia).
  destruct (loop_retry m attempt locals _ Hoa eq_refl)
    as (url & sleep & _ & -> & ->).
  cbv zeta. cbn [fst snd yield]. rewrite crawls_cons_crawl, crawls_cons_sleep.
  destruct (IH (attempt + 1)%Z locals) as [-> ->]; [|done].
  intros j Hj. apply Hb. lia.
Qed.


(** C1 (as amended).  Acceptance rule: the first attempt that collects at
    least one record and whose identities hold at least [min_new] that
    are not in [known_ids] makes [fetch_until_new] return at once that
    attempt's records, its identities and its number; to get there the
    engine ran one crawl per attempt and no more. *)
Theorem acceptance_rule (k : Z) (products : list json) (ids : list string) :
  (1 <= k <= max_retries)%Z ->
  (forall j, 1 <= j < k ->
     exists o, outcome j = Ok o /\ retries known min_new o = true)%Z ->
  outcome k = Ok (CrawlReturns products ids) ->
  products <> [] ->
  (min_new <= Z.of_nat (length (new_ids known ids)))%Z ->
  fst (fetch_until_new world base_url known page_idx max_retries min_new
         add_cache_bust) = Ok (products, ids, k)
  /\ crawls (snd (fetch_until_new world base_url known page_idx max_retries
                    min_new add_cache_bust)) = Z.to_nat k.
Proof.
  intros Hk Hr Ho Hp Hn. unfold fetch_until_new.
  assert (Ha : accepts known min_new products ids = true).
  { unfold accepts. apply andb_true_iff. split; [by destruct products|].
    by apply Z.leb_le. }
  replace (Z.to_nat max_retries)
    with (Z.to_nat (k - 1) + S (Z.to_nat (max_retries - k)))%nat by lia.
  destruct (loop_until_accept (Z.to_nat (k - 1)) (Z.to_nat (max_retries - k))
              1 None products ids) as [-> ->]; try done.
  - intros j Hj. apply Hr. lia.
  - by replace (1 + Z.of_nat (Z.to_nat (k - 1)))%Z with k by lia.
  - replace (1 + Z.of_nat (Z.to_nat (k - 1)))%Z with k by lia.
    split; [done|lia].
Qed.


(** C10.  When every attempt of the budget ends in a block event,
    [products] and [ids] are never assigned and the final [return]
    raises [UnboundLocalError]: the engine raises instead of returning
    its triple. *)
Theorem all_blocked_raises :
  (forall j, 1 <= j <= max_retries -> outcome j = Ok CrawlBlocked)%Z ->
  fst (fetch_until_new world base_url known page_idx max_retries min_new
         add_cache_bust) = Raise UnboundLocalError
  /\ crawls (snd (fetch_until_new world base_url known page_idx max_retries
                    min_new add_cache_bust)) = Z.to_nat max_retries.
Proof.
  intros Hb. unfold fetch_until_new.
  destruct (loop_all_blocked (Z.to_nat max_retries) 1 None) as [-> ->];
    [|done].
  intros j Hj. apply Hb. lia.
Qed.




End Engine.

(** *** The engine on concrete pages *)

Section EngineExamples.
Import ProductFetch Sample.

(** With [known_ids = {"A","B"}] and a threshold of one, the attempt that
    yields A and B goes round and the next, which yields A and C, is
    returned. *)
Lemma acceptance_rule_witness :
  fst (fetch_until_new stale_then_fresh base_url {["A"; "B"]} 1 5 1 true)
    = Ok ([item "A"; item "C"], ["A"; "C"], 2%Z)
  /\ crawls (snd (fetch_until_new stale_then_fresh base_url {["A"; "B"]}
                    1 5 1 true)) = 2%nat.
Proof.
  apply (acceptance_rule stale_then_fresh base_url {["A"; "B"]} 1 5 1 true 2
           [item "A"; item "C"] ["A"; "C"]).
  - lia.
  - intros j Hj. assert (j = 1%Z) as -> by lia.
    exists (CrawlReturns [item "A"; item "B"] ["A"; "B"]).
    split; vm_compute; reflexivity.
  - vm_compute; reflexivity.
  - discriminate.
  - vm_compute. discriminate.
Defined.

(** A threshold of zero and an attempt that collects nothing: no
    identity is missing for the threshold, and still the engine goes on
    to the second attempt. *)
Lemma acceptance_rule_counterexample :
  attempt_outcome always_empty base_url true 1 = Ok (CrawlReturns [] [])
  /\ (0 <= Z.of_nat (length (new_ids {["A"; "B"]} [])))%Z
  /\ fst (fetch_until_new always_empty base_url {["A"; "B"]} 1 2 0 true)
     = Ok ([], [], 2%Z)
  /\ crawls (snd (fetch_until_new always_empty base_url {["A"; "B"]}
                    1 2 0 true)) = 2%nat.
Proof. repeat split; vm_compute; try reflexivity; discriminate. Qed.


Lemma all_blocked_raises_witness :
  fst (fetch_until_new always_blocked base_url {["A"; "B"]} 1 5 1 true)
    = Raise UnboundLocalError
  /\ crawls (snd (fetch_until_new always_blocked base_url {["A"; "B"]}
                    1 5 1 true)) = 5%nat.
Proof.
  apply (all_blocked_raises always_blocked base_url {["A"; "B"]} 1 5 1 true).
  intros j Hj.
  assert (j = 1 \/ j = 2 \/ j = 3 \/ j = 4 \/ j = 5)%Z
    as [->|[->|[->|[->| ->]]]] by lia; vm_compute; reflexivity.
Defined.


End EngineExamples.

(** ** The pagination planner *)

Section Planner.
Import ProductFetch.




End Planner.

(** ** The record store *)

Section DictFacts.
Context {V : Type}.
Implicit Types (d : PyDict.t V) (k : string) (v : V).

Lemma dict_mem_keys k d : PyDict.mem k d = true <-> k ∈ PyDict.keys d.
Proof.
  induction d as [|[k' v'] d IH]; simpl.
  - split; [done|]. by intros ?%elem_of_nil.
  - rewrite orb_true_iff, IH, elem_of_cons, String.eqb_eq. naive_solver.
Qed.

Lemma dict_set_new k v d :
  k ∉ PyDict.keys d -> PyDict.set k v d = (d ++ [(k, v)])%list.
Proof.
  induction d as [|[k' v'] d IH]; simpl; [done|].
  intros [Hne Hnot]%not_elem_of_cons.
  destruct (String.eqb_spec k' k); [congruence|]. by rewrite IH.
Qed.

Lemma dict_set_keys k v d :
  k ∈ PyDict.keys d -> PyDict.keys (PyDict.set k v d) = PyDict.keys d.
Proof.
  induction d as [|[k' v'] d IH]; simpl; [by intros ?%elem_of_nil|].
  intros Hin. destruct (String.eqb_spec k' k); [done|].
  simpl. f_equal. apply IH. apply elem_of_cons in Hin as [->|]; done.
Qed.

Lemma dict_get_set_eq k v d : PyDict.get k (PyDict.set k v d) = Some v.
Proof.
  induction d as [|[k' v'] d IH]; simpl.
  - by rewrite String.eqb_refl.
  - destruct (String.eqb_spec k' k) as [->|Hne]; simpl.
    + by rewrite String.eqb_refl.
    + by destruct (String.eqb_spec k' k).
Qed.

Lemma dict_get_set_ne k k' v d :
  k <> k' -> PyDict.get k' (PyDict.set k v d) = PyDict.get k' d.
Proof.
  intros Hne. induction d as [|[k0 v0] d IH]; simpl.
  - by destruct (String.eqb_spec k k').
  - destruct (String.eqb_spec k0 k) as [->|]; simpl.
    + by destruct (String.eqb_spec k k').
    + by rewrite IH.
Qed.

Lemma dict_get_app_new k k' v d :
  k' <> k -> PyDict.get k (d ++ [(k', v)])%list = PyDict.get k d.
Proof.
  intros Hne. induction d as [|[k0 v0] d IH]; simpl.
  - by destruct (String.eqb_spec k' k).
  - by rewrite IH.
Qed.

Lemma dict_get_keys k d : is_Some (PyDict.get k d) <-> k ∈ PyDict.keys d.
Proof.
  induction d as [|[k' v'] d IH]; simpl.
  - split; [by intros [? ?]|by intros ?%elem_of_nil].
  - rewrite elem_of_cons. destruct (String.eqb_spec k' k) as [->|].
    + split; [by left|by eexists].
    + rewrite IH. naive_solver.
Qed.

End DictFacts.

Section Store.
Import ProductFetch.

Lemma merge_one (p : json) (pid : string) known store fresh :
  get_product_id p = Ok pid ->
  merge_page [p] known store fresh
  = Ok (if negb (String.eqb pid "") && negb (bool_decide (pid ∈ known))
        then ({[pid]} ∪ known, PyDict.set pid p store, (fresh ++ [p])%list)
        else (known, store, fresh)).
Proof. intros Hp. simpl. rewrite Hp. simpl. by case_match. Qed.

Lemma store_ok_add known store pid (p : json) :
  store_ok known store -> pid ∉ known ->
  store_ok ({[pid]} ∪ known) (PyDict.set pid p store)
  /\ PyDict.set pid p store = (store ++ [(pid, p)])%list.
Proof.
  intros [-> Hnd] Hnew.
  assert (Hk : pid ∉ PyDict.keys store) by set_solver.
  rewrite (dict_set_new _ _ _ Hk). split; [|done]. unfold store_ok.
  unfold PyDict.keys in *. rewrite map_app. simpl. split; [set_solver|].
  apply NoDup_app. split; [done|]. split; [set_solver|].
  apply NoDup_singleton.
Qed.

(** Whatever a page brings, the store stays well formed and no record
    it already held is replaced. *)
Lemma merge_page_keeps products : forall known store fresh known' store' fresh',
  store_ok known store ->
  merge_page products known store fresh = Ok (known', store', fresh') ->
  store_ok known' store'
  /\ (forall pid r, PyDict.get pid store = Some r ->
                    PyDict.get pid store' = Some r).
Proof.
  induction products as [|p products IH];
    intros known store fresh known' store' fresh' Hok Hm; simpl in Hm.
  - by injection Hm as <- <- <-.
  - destruct (get_product_id p) as [pid|]; simpl in Hm; [|done].
    destruct (negb (String.eqb pid "") && negb (bool_decide (pid ∈ known)))
      eqn:Hnew.
    + apply andb_true_iff in Hnew as [_ Hnew].
      apply negb_true_iff, bool_decide_eq_false in Hnew.
      destruct (store_ok_add known store pid p Hok Hnew) as [Hok' Hset].
      destruct (IH _ _ _ _ _ _ Hok' Hm) as [Hok'' Hget]. split; [done|].
      intros pid' r Hr. apply Hget. rewrite Hset.
      rewrite dict_get_app_new; [done|]. intros ->.
      destruct Hok as [-> _]. apply Hnew, elem_of_list_to_set.
      apply dict_get_keys. by eexists.
    + by apply (IH _ _ _ _ _ _ Hok Hm).
Qed.

(** C9 (as amended).  Merging a record into the store: an identity the
    store already knows is skipped, so the record kept for it is the first
    one captured and is not overwritten; a new identity adds one entry at
    the end.  Either way the store keeps one entry per identity, and
    merging the same record a second time changes nothing, so the size is
    that after the first merge.  Only the load of the products file lets a
    later record of an identity replace the earlier one, in place. *)
Theorem record_store_merge (known : gset string) (store : PyDict.t json)
        (p : json) (pid : string) :
  store_ok known store ->
  get_product_id p = Ok pid ->
  pid <> "" ->
  exists known' store' fresh,
    merge_page [p] known store [] = Ok (known', store', fresh)
    /\ store_ok known' store'
    /\ (pid ∈ known -> known' = known /\ store' = store /\ fresh = [])
    /\ (pid ∉ known ->
        store' = (store ++ [(pid, p)])%list /\ fresh = [p]
        /\ PyDict.get pid store' = Some p)
    /\ (forall pid' r, PyDict.get pid' store = Some r ->
                       PyDict.get pid' store' = Some r)
    /\ merge_page [p] known' store' [] = Ok (known', store', [])
    /\ index_products [p] store = Ok (PyDict.set pid p store)
    /\ PyDict.get pid (PyDict.set pid p store) = Some p
    /\ (pid ∈ known ->
        PyDict.keys (PyDict.set pid p store) = PyDict.keys store).
Proof.
  intros Hok Hp Hne.
  assert (Hnes : String.eqb pid "" = false) by by apply String.eqb_neq.
  pose proof (merge_one p pid known store [] Hp) as Hm.
  rewrite Hnes in Hm. simpl in Hm.
  assert (Hidx : index_products [p] store = Ok (PyDict.set pid p store)).
  { simpl. rewrite Hp. simpl. by rewrite Hnes. }
  destruct (decide (pid ∈ known)) as [Hin|Hnew].
  - rewrite (bool_decide_eq_true_2 _ Hin) in Hm. simpl in Hm.
    exists known, store, []. split_and!.
    + exact Hm.
    + exact Hok.
    + done.
    + done.
    + done.
    + exact Hm.
    + exact Hidx.
    + apply dict_get_set_eq.
    + intros _. apply dict_set_keys. destruct Hok as [-> _].
      by apply elem_of_list_to_set in Hin.
  - rewrite (bool_decide_eq_false_2 _ Hnew) in Hm. simpl in Hm.
    destruct (store_ok_add known store pid p Hok Hnew) as [Hok' Hset].
    exists ({[pid]} ∪ known), (PyDict.set pid p store), [p]. split_and!.
    + exact Hm.
    + exact Hok'.
    + done.
    + intros _. split_and!; [done|done|apply dict_get_set_eq].
    + intros pid' r Hr. rewrite dict_get_set_ne; [done|]. intros ->.
      destruct Hok as [-> _]. apply Hnew, elem_of_list_to_set.
      apply dict_get_keys. by eexists.
    + rewrite (merge_one p pid _ _ [] Hp), Hnes.
      rewrite bool_decide_eq_true_2; [done|].
      apply elem_of_union_l, elem_of_singleton. done.
    + exact Hidx.
    + apply dict_get_set_eq.
    + done.
Qed.

End Store.

Section StoreExamples.
Import ProductFetch Sample.

(** The store holds the first capture of A; merging the second capture
    of A leaves it as it is. *)
Lemma record_store_merge_witness :
  merge_page [second_capture] {["A"]} [("A", first_capture)] []
  = Ok ({["A"]}, [("A", first_capture)], []).
Proof.
  destruct (record_store_merge {["A"]} [("A", first_capture)]
              second_capture "A")
    as (known' & store' & fresh & Hm & _ & Hin & _).
  - split; [|apply NoDup_singleton]. simpl.
    by rewrite (right_id_L ∅ (∪)).
  - reflexivity.
  - discriminate.
  - destruct Hin as (-> & -> & ->); [by apply elem_of_singleton|].
    exact Hm.
Defined.

(** A later merge of the same identity does not overwrite: after the
    first capture of A and then the second, the store still holds the
    first. *)
Lemma record_store_merge_counterexample :
  exists known store,
    merge_page [first_capture] ∅ [] [] = Ok (known, store, [first_capture])
    /\ merge_page [second_capture] known store [] = Ok (known, store, [])
    /\ PyDict.get "A" store = Some first_capture
    /\ first_capture <> second_capture.
Proof.
  exists ({["A"]} ∪ ∅), [("A", first_capture)].
  split_and!; [reflexivity| |reflexivity|discriminate].
  rewrite (merge_one second_capture "A"); [|reflexivity].
  rewrite bool_decide_eq_true_2; [done|].
  by apply elem_of_union_l, elem_of_singleton.
Qed.

End StoreExamples.

(** ** The paginated harvest *)

Section HarvestRun.
Import ProductFetch.
Context `{PyLib}.
Variable w : World.

Lemma page_file_not_output page_idx :
  OUTPUT_FILE <> page_file page_idx
  /\ OUTPUT_FILE <> page_file page_idx ++ ".tmp"
  /\ PAGES_INDEX_FILE <> page_file page_idx
  /\ PAGES_INDEX_FILE <> page_file page_idx ++ ".tmp".
Proof. unfold page_file, OUTPUT_FILE, PAGES_INDEX_FILE. by simpl. Qed.

Lemma written_other path data d path' :
  path' <> path -> path' <> path ++ ".tmp" ->
  written path data d !! path' = d !! path'.
Proof.
  intros H1 H2. unfold written.
  rewrite lookup_insert_ne, lookup_delete_ne, lookup_insert_ne; done.
Qed.

Lemma written_same path data d : written path data d !! path = Some data.
Proof. unfold written. apply lookup_insert_eq. Qed.

(** A turn of the page loop writes nothing, or the new records of its
    page to that page's own file. *)
Lemma page_step_disk page_idx base_url st :
  match page_step w page_idx base_url st with
  | Finished st' =>
      disk st' = disk st
      \/ exists fresh,
           fresh <> []
           /\ disk st' = written (page_file page_idx) (JArr fresh) (disk st)
           /\ total_new_added st'
              = (total_new_added st + Z.of_nat (length fresh))%Z
  | Crashed _ files _ => files = disk st
  end.
Proof.
  unfold page_step.
  destruct (fetch_until_new _ _ _ _ _ _ _) as [[[[products ids] n]|e] trace];
    [|done].
  destruct products as [|p products]; [by left|].
  destruct (merge_page _ _ _ _) as [[[known store] fresh]|e]; [|done].
  simpl. destruct (index_set _ _ _) as [index|e]; [|done].
  simpl. destruct fresh as [|x fresh]; [by left|].
  right. exists (x :: fresh). done.
Qed.

Lemma page_step_keeps page_idx base_url st path :
  path <> page_file page_idx -> path <> page_file page_idx ++ ".tmp" ->
  match page_step w page_idx base_url st with
  | Finished st' => disk st' !! path = disk st !! path
  | Crashed _ files _ => files !! path = disk st !! path
  end.
Proof.
  intros H1 H2. pose proof (page_step_disk page_idx base_url st) as Hd.
  destruct (page_step _ _ _ _) as [st'|e files evs]; [|by subst].
  destruct Hd as [->|(fresh & _ & -> & _)]; [done|].
  by apply written_other.
Qed.

Lemma pages_loop_keeps urls : forall page_idx st path,
  (forall i, path <> page_file i /\ path <> page_file i ++ ".tmp") ->
  match pages_loop w urls page_idx st with
  | Finished st' => disk st' !! path = disk st !! path
  | Crashed _ files _ => files !! path = disk st !! path
  end.
Proof.
  induction urls as [|url urls IH]; intros page_idx st path Hp; simpl;
    [done|].
  pose proof (page_step_keeps page_idx url st path
                (proj1 (Hp page_idx)) (proj2 (Hp page_idx))) as Hs.
  destruct (page_step _ _ _ _) as [st'|e files evs]; [|done].
  specialize (IH (page_idx + 1)%Z st' path Hp).
  destruct (pages_loop _ _ _ _); by rewrite IH.
Qed.

Lemma start_disk link disk0 st urls :
  start w link disk0 = Ok (st, urls) -> disk st = disk0.
Proof.
  unfold start.
  destruct (index_products _ _) as [store|]; simpl; [|done].
  destruct (detect_total_pages _ _) as [n|]; simpl; [|done].
  destruct (page_urls _ _) as [us|]; simpl; [|done].
  by intros [= <- <-].
Qed.

Lemma output_not_page path :
  path = OUTPUT_FILE \/ path = PAGES_INDEX_FILE ->
  forall i, path <> page_file i /\ path <> page_file i ++ ".tmp".
Proof.
  intros Hp i. pose proof (page_file_not_output i). naive_solver.
Qed.

(** C4 (as amended).  In the paginated harvest a page writes at most its
    own [page_<n>.json], holding the new records of that page; the
    products file and the pages-index file are not written while the
    pages are processed.  Both are written once, after the last page,
    from the whole store and the whole index; a run that stops earlier
    leaves them as they were before the run. *)
Theorem persistence_after_last_page (link : string)
        (disk0 : gmap string json) :
  (forall n : nat,
     match after_pages w link disk0 n with
     | Finished st =>
         disk st !! OUTPUT_FILE = disk0 !! OUTPUT_FILE
         /\ disk st !! PAGES_INDEX_FILE = disk0 !! PAGES_INDEX_FILE
     | Crashed _ files _ =>
         files !! OUTPUT_FILE = disk0 !! OUTPUT_FILE
         /\ files !! PAGES_INDEX_FILE = disk0 !! PAGES_INDEX_FILE
     end)
  /\ match harvest w link disk0 with
     | Finished st =>
         disk st !! OUTPUT_FILE
         = Some (JArr (PyDict.values (all_products_by_id st)))
         /\ disk st !! PAGES_INDEX_FILE = Some (pages_index st)
     | Crashed _ files _ =>
         files !! OUTPUT_FILE = disk0 !! OUTPUT_FILE
         /\ files !! PAGES_INDEX_FILE = disk0 !! PAGES_INDEX_FILE
     end
  /\ (forall (page_idx : Z) (base_url : string) (st : Harvest),
        match page_step w page_idx base_url st with
        | Finished st' =>
            disk st' = disk st
            \/ exists fresh,
                 fresh <> []
                 /\ disk st'
                    = written (page_file page_idx) (JArr fresh) (disk st)
                 /\ total_new_added st'
                    = (total_new_added st + Z.of_nat (length fresh))%Z
        | Crashed _ files _ => files = disk st
        end).
Proof.
  split_and!; [| |apply page_step_disk].
  - intros n. unfold after_pages.
    destruct (start w link disk0) as [[st urls]|e] eqn:Hs; [|done].
    apply start_disk in Hs as <-.
    pose proof (pages_loop_keeps (firstn n urls) 1 st OUTPUT_FILE
                  (output_not_page _ (or_introl eq_refl))).
    pose proof (pages_loop_keeps (firstn n urls) 1 st PAGES_INDEX_FILE
                  (output_not_page _ (or_intror eq_refl))).
    by destruct (pages_loop _ _ _ _).
  - unfold harvest.
    destruct (start w link disk0) as [[st urls]|e] eqn:Hs; [|done].
    apply start_disk in Hs as <-.
    pose proof (pages_loop_keeps urls 1 st OUTPUT_FILE
                  (output_not_page _ (or_introl eq_refl))).
    pose proof (pages_loop_keeps urls 1 st PAGES_INDEX_FILE
                  (output_not_page _ (or_intror eq_refl))).
    destruct (pages_loop _ _ _ _) as [st'|]; [|done].
    unfold final_writes, atomic_write_json. simpl. split.
    + rewrite written_other; [apply written_same|done|done].
    + apply written_same.
Qed.

End HarvestRun.

Section HarvestExamples.
Import ProductFetch Sample.

(** A listing of two pages: when the first page is done, its record A is
    in the store and in [page_1.json], and neither the products file nor
    the pages index is on the disk. *)
Lemma persistence_counterexample :
  exists st,
    after_pages two_pages link ∅ 1 = Finished st
    /\ all_products_by_id st = [("A", item "A")]
    /\ disk st !! page_file 1 = Some (JArr [item "A"])
    /\ disk st !! OUTPUT_FILE = None
    /\ disk st !! PAGES_INDEX_FILE = None
    /\ exists st', harvest two_pages link ∅ = Finished st'
                   /\ disk st' !! OUTPUT_FILE
                      = Some (JArr [item "A"; item "B"]).
Proof.
  eexists. split; [vm_compute; reflexivity|].
  split_and!; try (vm_compute; reflexivity).
  eexists. split; vm_compute; reflexivity.
Qed.

End HarvestExamples.

(** ** The link canonicalizer *)

Section UrllibFacts.
Import Urllib.
Context `{PyLib}.

Lemma split_scheme_https rest default :
  split_scheme ("https:" ++ rest) default = ("https", rest).
Proof. reflexivity. Qed.

Lemma split_tail_scheme sch net url r :
  split_tail sch net url = Some r -> s_scheme r = sch.
Proof.
  unfold split_tail. repeat case_match; intros [= <-]; done.
Qed.

(** Text that begins with [https:] splits with the scheme [https]. *)
Lemma urlsplit_https rest default r :
  urlsplit ("https:" ++ rest) default = Some r -> s_scheme r = "https".
Proof.
  unfold urlsplit.
  change (Py.lstrip_by c0_or_space ("https:" ++ rest))
    with ("https:" ++ rest).
  change (Py.remove_char unsafe_byte ("https:" ++ rest))
    with ("https:" ++ Py.remove_char unsafe_byte rest).
  rewrite split_scheme_https.
  repeat case_match; try done; apply split_tail_scheme.
Qed.

Lemma urlparse_https rest default p :
  urlparse ("https:" ++ rest) default = Some p -> scheme p = "https".
Proof.
  unfold urlparse.
  destruct (urlsplit _ _) as [r|] eqn:Hr; [|done].
  apply urlsplit_https in Hr. repeat case_match; by intros [= <-].
Qed.

Lemma urlunparse_https net p pa q f :
  exists rest, urlunparse "https" net p pa q f = "https:" ++ rest.
Proof.
  unfold urlunparse, urlunsplit. cbv zeta.
  change (negb (String.eqb "https" "")) with true. cbv iota.
  match goal with
  | |- context [ "https" ++ ":" ++ ?x ] => generalize x
  end.
  intros x.
  destruct (negb (String.eqb q "")), (negb (String.eqb f ""));
    eexists; reflexivity.
Qed.

Lemma urljoin_https base rest a :
  urljoin base ("https:" ++ rest) = Some a ->
  exists rest', a = "https:" ++ rest'.
Proof.
  unfold urljoin. destruct (String.eqb base ""); [intros [= <-]; by eexists|].
  change (String.eqb ("https:" ++ rest) "") with false. cbv iota.
  destruct (urlparse base "") as [b|]; [|done].
  destruct (urlparse ("https:" ++ rest) (scheme b)) as [u|] eqn:Hu; [|done].
  apply urlparse_https in Hu. rewrite Hu.
  change (mem "https" uses_relative) with true.
  change (mem "https" uses_netloc) with true. cbv iota.
  repeat case_match; intros [= <-];
    try (by eexists); apply urlunparse_https.
Qed.

Lemma urldefrag_https rest a :
  urldefrag ("https:" ++ rest) = Some a ->
  exists rest', a = "https:" ++ rest'.
Proof.
  unfold urldefrag. case_match; [|intros [= <-]; by eexists].
  destruct (urlparse _ _) as [p|] eqn:Hp; [|done].
  apply urlparse_https in Hp. rewrite Hp. intros [= <-].
  apply urlunparse_https.
Qed.

End UrllibFacts.

Section Canonicalizer.
Import RetrieveCategory.
Context `{PyLib}.

(** C7 (as amended).  A protocol-relative [href] (one that begins with
    [//]) is given the scheme [https], whatever the scheme of [base]:
    when [canonicalize_category_link] returns, the canonical URL begins
    with [https:] and parses back with the scheme [https]. *)
Theorem protocol_relative_https (base href canonical_url key : string) :
  Py.startswith href "//" = true ->
  canonicalize_category_link base href = Some (canonical_url, key) ->
  Py.startswith canonical_url "https:" = true
  /\ (forall p, Urllib.urlparse canonical_url "" = Some p ->
                Urllib.scheme p = "https").
Proof.
  intros Hrel. unfold canonicalize_category_link.
  destruct (String.eqb href "") eqn:He.
  { apply String.eqb_eq in He. by subst. }
  rewrite Hrel.
  destruct (Urllib.urljoin base ("https:" ++ href)) as [a0|] eqn:Hj;
    cbn [mbind option_bind]; [|done].
  apply urljoin_https in Hj as [r0 ->].
  destruct (Urllib.urldefrag ("https:" ++ r0)) as [a1|] eqn:Hd;
    cbn [mbind option_bind]; [|done].
  apply urldefrag_https in Hd as [r1 ->].
  destruct (Urllib.urlparse ("https:" ++ r1) "") as [p|] eqn:Hp;
    cbn [mbind option_bind]; [|done].
  apply urlparse_https in Hp. rewrite Hp.
  change (String.eqb "https" "") with false. cbv iota.
  intros [= <- _].
  match goal with
  | |- context [Urllib.urlunparse "https" ?n ?pth ?pa ?q ?f] =>
      destruct (urlunparse_https n pth pa q f) as [rest ->]
  end.
  split; [reflexivity|]. intros p'. apply urlparse_https.
Qed.

(** C5.  Canonicalization is not idempotent on a path whose last but one
    segment holds a [;]: dropping the final slash of [/a;b/] gives
    [/a;b], which [urlparse] then reads as the path [/a] with the
    parameters [b]. *)
Theorem canonicalize_twice :
  canonicalize_category_link "https://www.daraz.com.bd/" "/a;b/"
  = Some ("https://www.daraz.com.bd/a;b", "daraz.com.bd/a;b")
  /\ canonicalize_category_link "https://www.daraz.com.bd/"
       "https://www.daraz.com.bd/a;b"
     = Some ("https://www.daraz.com.bd/a", "daraz.com.bd/a").
Proof. split; reflexivity. Qed.

Lemma whitelist_mem k : Urllib.mem k whitelist = true <-> In k whitelist.
Proof.
  unfold Urllib.mem. rewrite existsb_exists. split.
  - intros (x & Hx & ->%String.eqb_eq). done.
  - intros Hk. exists k. by rewrite String.eqb_refl.
Qed.

Lemma dict_mem_set {V} k k' (v : V) d :
  PyDict.mem k (PyDict.set k' v d) = String.eqb k' k || PyDict.mem k d.
Proof.
  induction d as [|[k0 v0] d IH]; simpl; [done|].
  destruct (String.eqb_spec k0 k') as [->|Hne]; simpl; [|rewrite IH].
  - by destruct (String.eqb k' k).
  - destruct (String.eqb k0 k), (String.eqb k' k); done.
Qed.

Lemma keep_loop_mem q_pairs : forall keep k,
  PyDict.mem k
    (fold_left
       (fun keep kv =>
          if kept_pair kv then PyDict.set (fst kv) (Py.strip (snd kv)) keep
          else keep) q_pairs keep) = true
  <-> PyDict.mem k keep = true
      \/ exists v, In (k, v) q_pairs /\ kept_pair (k, v) = true.
Proof.
  induction q_pairs as [|[k0 v0] q IH]; intros keep k; simpl.
  - naive_solver.
  - rewrite IH. destruct (kept_pair (k0, v0)) eqn:Hk; simpl.
    + rewrite dict_mem_set, orb_true_iff, String.eqb_eq. split.
      * intros [[->|?]|(v & ? & ?)]; eauto.
      * intros [?|(v & [[= -> ->]|?] & ?)]; eauto.
    + split.
      * intros [?|(v & ? & ?)]; eauto.
      * intros [?|(v & [[= -> ->]|?] & ?)]; eauto. congruence.
Qed.

Lemma keep_loop_none q_pairs : forall keep,
  forallb (fun kv => negb (kept_pair kv)) q_pairs = true ->
  fold_left
    (fun keep kv =>
       if kept_pair kv then PyDict.set (fst kv) (Py.strip (snd kv)) keep
       else keep) q_pairs keep = keep.
Proof.
  induction q_pairs as [|kv q IH]; intros keep; simpl; [done|].
  intros [Hk Hq]%andb_true_iff. apply negb_true_iff in Hk. rewrite Hk.
  by apply IH.
Qed.

Lemma scan_keys_first keys fields cat :
  scan_keys keys fields = Some cat
  <-> exists before key after,
        keys = (before ++ key :: after)%list
        /\ forallb (fun k => negb (gives_fallback fields k)) before = true
        /\ gives_fallback fields key = true
        /\ cat = Py.strip (Json.str (Json.get key fields)).
Proof.
  induction keys as [|k keys IH]; simpl.
  - split; [done|]. intros ([|? ?] & ? & ? & ? & _); done.
  -       destruct (gives_fallback fields k) eqn:Hk.
    + split.
      * intros [= <-]. by exists [], k, keys.
      * intros ([|k' before] & key & after & Heq & Hb & Hg & ->).
        -- by injection Heq as <- _.
        -- injection Heq as <- _. simpl in Hb. by rewrite Hk in Hb.
    + rewrite IH. split.
      * intros (before & key & after & -> & Hb & Hg & ->).
        exists (k :: before), key, after. simpl. by rewrite Hk.
      * intros ([|k' before] & key & after & Heq & Hb & Hg & ->).
        -- injection Heq as <- _. congruence.
        -- injection Heq as <- ->. simpl in Hb. rewrite Hk in Hb.
           by exists before, key, after.
Qed.

(** C8 (as amended).  The fallback category id is the trimmed text of the
    first key of (categoryId, catId, catIdLv1, cat) that the JSON object
    in the last non-empty [params] parameter holds with a value whose
    text is not blank.  It is put into the kept parameters under
    [categoryId] exactly when the query holds no whitelisted key with a
    value that is not blank: a whitelisted key that is there with a blank
    value does not stop it. *)
Theorem fallback_injection (q_pairs : list (string * string)) :
  let qmap := PyDict.of_pairs q_pairs in
  let no_kept := forallb (fun kv => negb (kept_pair kv)) q_pairs in
  (forall cat,
     cat_from_params qmap = Some cat
     <-> exists raw fields before key after,
           PyDict.get "params" qmap = Some raw /\ raw <> ""
           /\ json_loads raw = Some (JObj fields)
           /\ category_keys = (before ++ key :: after)%list
           /\ forallb (fun k => negb (gives_fallback fields k)) before = true
           /\ gives_fallback fields key = true
           /\ cat = Py.strip (Json.str (Json.get key fields)))
  /\ (forall k, PyDict.mem k (keep_whitelisted q_pairs) = true
                <-> exists v, In (k, v) q_pairs /\ kept_pair (k, v) = true)
  /\ kept_params q_pairs
     = match cat_from_params qmap with
       | Some cat => if no_kept then [("categoryId", cat)]
                     else keep_whitelisted q_pairs
       | None => keep_whitelisted q_pairs
       end.
Proof.
  intros qmap no_kept. split_and!.
  - intros cat. unfold cat_from_params.
    destruct (PyDict.get "params" qmap) as [raw|].
    2:{ split; [done|]. by intros (? & ? & ? & ? & ? & ? & _). }
    destruct (String.eqb_spec raw "") as [->|Hraw].
    { split; [done|]. intros (? & ? & ? & ? & ? & [= <-] & ? & _). done. }
    destruct (json_loads raw) as [[| | | | | |fields]|] eqn:Hl;
      try (split; [done|];
           intros (? & ? & ? & ? & ? & [= <-] & ? & Hl' & _); congruence).
    rewrite scan_keys_first. split.
    + intros (before & key & after & ? & ? & ? & ?).
      by exists raw, fields, before, key, after.
    + intros (? & ? & before & key & after & [= <-] & ? & Hl' & ? & ? & ? & ?).
      rewrite Hl in Hl'. injection Hl' as <-.
      by exists before, key, after.
  - intros k. unfold keep_whitelisted.
    rewrite (keep_loop_mem q_pairs [] k). simpl. naive_solver.
  - unfold kept_params. fold qmap.
    destruct (cat_from_params qmap) as [cat|]; [|done].
    subst no_kept.
    destruct (forallb _ q_pairs) eqn:Hall.
    + unfold keep_whitelisted.
      rewrite (keep_loop_none q_pairs [] Hall). reflexivity.
    + assert (Hex : existsb
                      (fun k => PyDict.mem k (keep_whitelisted q_pairs))
                      whitelist = true).
      { apply not_true_iff_false in Hall.
        destruct (existsb _ whitelist) eqn:Hex; [done|]. exfalso.
        apply Hall, forallb_forall. intros [k v] Hin.
        apply negb_true_iff. destruct (kept_pair (k, v)) eqn:Hk; [|done].
        assert (Hw : In k whitelist).
        { apply whitelist_mem. by apply andb_true_iff in Hk as [? _]. }
        pose proof (proj2 (not_true_iff_false _) Hex) as Hno.
        exfalso. apply Hno, existsb_exists. exists k. split; [done|].
        unfold keep_whitelisted. apply (keep_loop_mem q_pairs [] k).
        right. by exists v. }
      by rewrite Hex.
Qed.

End Canonicalizer.

Section CanonicalizerExamples.
Import RetrieveCategory Sample.

Lemma protocol_relative_https_witness :
  Py.startswith "https://example.com/a" "https:" = true
  /\ (forall p, Urllib.urlparse "https://example.com/a" "" = Some p ->
                Urllib.scheme p = "https").
Proof.
  apply (protocol_relative_https "http://example.com/" "//example.com/a"
           "https://example.com/a" "example.com/a"); reflexivity.
Defined.

(** The base is an [http] page; the protocol-relative link comes out
    with [https]. *)
Lemma protocol_relative_counterexample :
  Urllib.scheme <$> Urllib.urlparse "http://example.com/" "" = Some "http"
  /\ canonicalize_category_link "http://example.com/" "//example.com/a"
     = Some ("https://example.com/a", "example.com/a")
  /\ Urllib.scheme <$> Urllib.urlparse "https://example.com/a" ""
     = Some "https".
Proof. split_and!; reflexivity. Qed.

(** [categoryId] is in the query, with an empty value, and the id of the
    [params] payload is injected all the same. *)
Lemma fallback_injection_counterexample :
  Urllib.parse_qsl "categoryId=&params=%7B%22catId%22%3A+7%7D"
  = [("categoryId", ""); ("params", params_text)]
  /\ In "categoryId" whitelist
  /\ kept_params [("categoryId", ""); ("params", params_text)]
     = [("categoryId", "7")]
  /\ canonicalize_category_link "https://www.daraz.com.bd/"
       "/catalog?categoryId=&params=%7B%22catId%22%3A+7%7D"
     = Some ("https://www.daraz.com.bd/catalog?categoryId=7",
             "daraz.com.bd/catalog?categoryId=7").
Proof. split_and!; try reflexivity. by left. Qed.

End CanonicalizerExamples.

(** ** Identities and de-duplication *)

Section Identity.
Import ProductFetch Notions.

Lemma get_stripped_raises field fields e :
  get_stripped field fields = Raise e
  <-> e = AttributeError /\ unstrippable field fields = true.
Proof.
  unfold get_stripped, unstrippable.
  destruct (Json.truthy (Json.get field fields)); simpl.
  - destruct (Json.get field fields);
      (split; [try done; by intros [= <-]|]);
      try (by intros [-> _]); by intros [_ ?].
  - split; [done|]. by intros [_ ?].
Qed.

(** X1.  [get_product_id] is not total: it raises [AttributeError], and
    nothing else, exactly on a product that is no [dict], or whose
    [data_item_id] is true without being text, or whose [data_item_id] gives
    no identity while [data_sku_simple] is true without being text. *)
Theorem get_product_id_raises (product : json) (e : exn) :
  get_product_id product = Raise e
  <-> e = AttributeError
      /\ match product with
         | JObj fields =>
             unstrippable "data_item_id" fields = true
             \/ (get_stripped "data_item_id" fields = Ok ""
                 /\ unstrippable "data_sku_simple" fields = true)
         | _ => True
         end.
Proof.
  destruct product as [| | | | | |fields]; simpl;
    try (split; [by intros [= <-]|by intros [-> _]]).
  destruct (get_stripped "data_item_id" fields) as [pid|e'] eqn:Hpid; simpl.
  - destruct (String.eqb_spec pid "") as [->|Hne]; simpl.
    + destruct (get_stripped "data_sku_simple" fields) as [sku|e''] eqn:Hsku;
        simpl.
      * split; [by case_match|].
        intros [_ [Hbad|[_ Hbad]]].
        -- assert (get_stripped "data_item_id" fields = Raise AttributeError)
             by by apply get_stripped_raises.
           congruence.
        -- assert (get_stripped "data_sku_simple" fields
                   = Raise AttributeError) by by apply get_stripped_raises.
           congruence.
      * apply get_stripped_raises in Hsku as [-> Hbad]. split.
        -- intros [= <-]. split; [done|]. by right.
        -- by intros [-> _].
    + split; [done|]. intros [_ [Hbad|[[= ->] _]]]; [|done].
      assert (get_stripped "data_item_id" fields = Raise AttributeError)
        by by apply get_stripped_raises.
      congruence.
  - apply get_stripped_raises in Hpid as [-> Hbad]. split.
    + intros [= <-]. split; [done|]. by left.
    + by intros [-> _].
Qed.

(** What the de-duplication loop keeps, given the identities [seen]. *)
Lemma dedupe_loop_spec products : forall seen deduped,
  dedupe_loop products seen = Ok deduped ->
  exists ids,
    Forall2 has_id deduped ids
    /\ NoDup ids
    /\ (forall pid, pid ∈ ids -> pid ∉ seen)
    /\ sublist deduped products
    /\ (forall p pid, p ∈ products -> has_id p pid ->
                      pid ∈ seen \/ pid ∈ ids).
Proof.
  induction products as [|p products IH]; intros seen deduped; simpl.
  - intros [= <-]. exists []. split_and!; try done.
    + constructor.
    + intros pid. by rewrite elem_of_nil.
    + intros p pid. by rewrite elem_of_nil.
  - destruct (get_product_id p) as [pid|] eqn:Hp; simpl; [|done].
    destruct (String.eqb_spec pid "") as [->|Hne].
    { intros Hd. destruct (IH _ _ Hd) as (ids & H1 & H2 & H3 & H4 & H5).
      exists ids. split_and!; try done.
      - by apply sublist_cons.
      - intros q qid [->|Hq]%elem_of_cons [Hq1 Hq2]; [congruence|].
        by apply (H5 q). }
    destruct (bool_decide (pid ∈ seen)) eqn:Hseen.
    { apply bool_decide_eq_true in Hseen.
      intros Hd. destruct (IH _ _ Hd) as (ids & H1 & H2 & H3 & H4 & H5).
      exists ids. split_and!; try done.
      - by apply sublist_cons.
      - intros q qid [->|Hq]%elem_of_cons [Hq1 Hq2].
        + left. congruence.
        + by apply (H5 q). }
    apply bool_decide_eq_false in Hseen.
    destruct (dedupe_loop products ({[pid]} ∪ seen)) as [d|] eqn:Hd;
      simpl; [|done].
    intros [= <-]. destruct (IH _ _ Hd) as (ids & H1 & H2 & H3 & H4 & H5).
    exists (pid :: ids). split_and!.
    + by constructor.
    + constructor; [|done]. intros Hin. apply (H3 pid Hin). set_solver.
    + intros i [->|Hi]%elem_of_cons; [done|].
      intros Hs. apply (H3 i Hi). set_solver.
    + by apply sublist_skip.
    + intros q qid [->|Hq]%elem_of_cons [Hq1 Hq2].
      * right. apply elem_of_cons. left. congruence.
      * destruct (H5 q qid Hq (conj Hq1 Hq2)) as [Hs|Hi].
        -- apply elem_of_union in Hs as [->%elem_of_singleton|Hs];
             [right; apply elem_of_cons; by left|by left].
        -- right. apply elem_of_cons. by right.
Qed.

(** X2.  [dedupe_products], when it returns, keeps a sub-list of its
    input, in the input's order, in which every record has a non-empty
    identity, no identity occurs twice, and every non-empty identity of the
    input is still there. *)
Theorem dedupe_products_spec (products deduped : list json) :
  dedupe_products products = Ok deduped ->
  exists ids,
    Forall2 has_id deduped ids
    /\ NoDup ids
    /\ sublist deduped products
    /\ (forall p pid, p ∈ products -> has_id p pid -> pid ∈ ids).
Proof.
  intros Hd. destruct (dedupe_loop_spec _ _ _ Hd) as (ids & ? & ? & ? & ? & H5).
  exists ids. split_and!; try done.
  intros p pid Hp Hid. destruct (H5 p pid Hp Hid) as [Hs|]; [|done].
  by apply elem_of_empty in Hs.
Qed.

Lemma dedupe_loop_fixed deduped : forall ids seen,
  Forall2 has_id deduped ids -> NoDup ids ->
  (forall pid, pid ∈ ids -> pid ∉ seen) ->
  dedupe_loop deduped seen = Ok deduped.
Proof.
  induction deduped as [|p d IH]; intros ids seen Hall Hnd Hseen; [done|].
  inversion Hall as [|? pid ? ids' [Hp Hne] Hall']; subst. simpl.
  rewrite Hp. simpl. apply String.eqb_neq in Hne. rewrite Hne.
  rewrite bool_decide_eq_false_2 by (apply Hseen; by left).
  apply NoDup_cons in Hnd as [Hnot Hnd].
  rewrite (IH ids' ({[pid]} ∪ seen)); [done|done|done|].
  intros i Hi [->%elem_of_singleton|Hs]%elem_of_union; [done|].
  apply (Hseen i); [by right|done].
Qed.

(** X3.  De-duplicating a de-duplicated list changes nothing. *)
Theorem dedupe_products_idempotent (products deduped : list json) :
  dedupe_products products = Ok deduped ->
  dedupe_products deduped = Ok deduped.
Proof.
  intros Hd. destruct (dedupe_loop_spec _ _ _ Hd) as (ids & ? & ? & _).
  apply (dedupe_loop_fixed deduped ids ∅); done.
Qed.

Lemma product_ids_of deduped : forall ids,
  Forall2 has_id deduped ids -> product_ids deduped = Ok ids.
Proof.
  induction deduped as [|p d IH]; intros ids Hall.
  - by inversion Hall.
  - inversion Hall as [|? pid ? ids' [Hp Hne] Hall']; subst. simpl.
    rewrite Hp. simpl. rewrite (IH ids' Hall'). simpl.
    apply String.eqb_neq in Hne. by rewrite Hne.
Qed.

End Identity.

Section IdentityExamples.
Import ProductFetch Notions Sample.

Lemma dedupe_products_spec_witness :
  exists ids,
    Forall2 has_id [item "A"; item "B"] ids
    /\ NoDup ids
    /\ sublist [item "A"; item "B"] [item "A"; item "B"; item "A"]
    /\ (forall p pid, p ∈ [item "A"; item "B"; item "A"] -> has_id p pid ->
                      pid ∈ ids).
Proof.
  apply (dedupe_products_spec [item "A"; item "B"; item "A"]
           [item "A"; item "B"]).
  vm_compute. reflexivity.
Defined.

Lemma dedupe_products_idempotent_witness :
  dedupe_products [item "A"; item "B"] = Ok [item "A"; item "B"].
Proof.
  apply (dedupe_products_idempotent [item "A"; item "B"; item "A"]).
  vm_compute. reflexivity.
Defined.

End IdentityExamples.

(** ** More on the engine *)

Section EngineBounds.
Import ProductFetch Notions.
Context `{PyLib}.
Variables (world : Z -> Attempt) (base_url : string).
Variables (known : gset string) (page_idx max_retries min_new : Z).
Variable add_cache_bust : bool.

Abbreviation loop' := (attempts_loop world base_url known page_idx max_retries
                         min_new add_cache_bust).
Abbreviation outcome' := (attempt_outcome world base_url add_cache_bust).

Lemma crawl_once_returns answer products ids :
  crawl_once answer = CrawlReturns products ids ->
  well_formed products ids.
Proof.
  unfold crawl_once. destruct answer as [|results]; [done|].
  destruct (collect results [] false) as [aggregated blocked].
  case_match; [done|].
  destruct (dedupe_products aggregated) as [deduped|] eqn:Hd; [|done].
  destruct (dedupe_loop_spec _ _ _ Hd) as (ids' & Hall & Hnd & _).
  rewrite (product_ids_of _ _ Hall). by intros [= <- <-].
Qed.

(** X4.  What [crawl_once] returns is well formed: [ids] lists the
    identity of every returned record, in order, none of them empty and
    none twice. *)
Theorem crawl_once_well_formed (answer : arun_outcome)
        (products : list json) (ids : list string) :
  crawl_once answer = CrawlReturns products ids ->
  Forall2 has_id products ids /\ NoDup ids.
Proof. apply crawl_once_returns. Qed.


(** One turn of the loop, by cases. *)
Lemma loop_step todo attempt locals :
  (exists e, attempt_url (world attempt) base_url add_cache_bust = Raise e
             /\ loop' (S todo) attempt locals = (Raise e, []))
  \/ (exists url products ids,
        attempt_url (world attempt) base_url add_cache_bust = Ok url
        /\ yield (crawl_once (arun (world attempt) url)) = Some (products, ids)
        /\ (products = [] /\ ids = [] \/ well_formed products ids)
        /\ accepts known min_new products ids = true
        /\ loop' (S todo) attempt locals
           = (Ok (products, ids, attempt), [EvCrawl page_idx attempt url]))
  \/ (exists url sleep locals',
        attempt_url (world attempt) base_url add_cache_bust = Ok url
        /\ (locals' = locals
            /\ crawl_once (arun (world attempt) url) = CrawlBlocked
            \/ exists products ids,
                 locals' = Some (products, ids)
                 /\ (products = [] /\ ids = [] \/ well_formed products ids))
        /\ loop' (S todo) attempt locals
           = (fst (loop' todo (attempt + 1) locals'),
              EvCrawl page_idx attempt url :: EvSleep (fst sleep) (snd sleep)
              :: snd (loop' todo (attempt + 1) locals'))).
Proof.
  simpl attempts_loop.
  destruct (attempt_url _ _ _) as [url|e]; [|left; by exists e].
  right. destruct (crawl_once _) as [products ids| |] eqn:Hc.
  - pose proof (crawl_once_returns _ _ _ Hc) as Hwf.
    destruct (accepts known min_new products ids) eqn:Ha.
    + left. exists url, products, ids. rewrite Hc.
      split_and!; [done|done|by right|done|done].
    + right.
      exists url, (Backoff, backoff_seconds attempt (rand (world attempt))),
        (Some (products, ids)).
      split_and!; [done|right; exists products, ids; split; [done|by right]|].
      by destruct (attempts_loop _ _ _ _ _ _ _ _ _ _).
  - right.
    exists url, (BlockCooldown, cooldown_seconds (rand (world attempt))),
      locals.
    split_and!; [done|by left|].
    by destruct (attempts_loop _ _ _ _ _ _ _ _ _ _).
  - right.
    exists url, (Backoff, backoff_seconds attempt (rand (world attempt))),
      (Some ([], [])).
    split_and!; [done|right; exists [], []; split; [done|by left]|].
    by destruct (attempts_loop _ _ _ _ _ _ _ _ _ _).
Qed.

Lemma loop_crawls todo : forall attempt locals,
  (crawls (snd (loop' todo attempt locals)) <= todo)%nat.
Proof.
  induction todo as [|todo IH]; intros attempt locals; [done|].
  destruct (loop_step todo attempt locals)
    as [(e & _ & ->)|[(url & p & i & _ & _ & _ & _ & ->)
                     |(url & sleep & locals' & _ & _ & ->)]]; simpl.
  - unfold crawls. simpl. lia.
  - unfold crawls. simpl. lia.
  - specialize (IH (attempt + 1)%Z locals').
    change (crawls (EvCrawl page_idx attempt url
                    :: EvSleep (fst sleep) (snd sleep)
                    :: snd (loop' todo (attempt + 1) locals')))
      with (S (crawls (snd (loop' todo (attempt + 1) locals')))).
    lia.
Qed.

Lemma loop_returns todo : forall attempt locals products ids n,
  match locals with
  | Some (p, i) => p = [] /\ i = [] \/ well_formed p i
  | None => True
  end ->
  fst (loop' todo attempt locals) = Ok (products, ids, n) ->
  (products = [] /\ ids = [] \/ well_formed products ids)
  /\ ((attempt <= n < attempt + Z.of_nat todo)%Z
      \/ n = max_retries /\ (locals <> None \/ todo <> O)).
Proof.
  induction todo as [|todo IH]; intros attempt locals products ids n Hl.
  - simpl. destruct locals as [[p i]|]; [|done].
    intros [= <- <- <-]. split; [done|]. right. split; [done|by left].
  - destruct (loop_step todo attempt locals)
      as [(e & _ & ->)|[(url & p & i & _ & _ & Hwf & _ & ->)
                       |(url & sleep & locals' & _ & Hl' & ->)]]; simpl.
    + done.
    + intros [= <- <- <-]. split; [done|]. left. lia.
    + intros Hr. apply IH in Hr as [Hwf Hn].
      * split; [done|]. destruct Hn as [Hn|[-> _]]; [left; lia|].
        right. split; [done|by right].
      * destruct Hl' as [[-> _]|(p & i & -> & Hwf)]; done.
Qed.

(** X5.  The budget is kept: [fetch_until_new] never crawls more than
    [max_retries] times, and when it returns [(products, ids, n)] then
    [1 <= n <= max_retries] and [ids] are the identities of [products], none
    twice (both are empty after an attempt that failed). *)
Theorem fetch_until_new_budget (products : list json) (ids : list string)
        (n : Z) :
  fst (fetch_until_new world base_url known page_idx max_retries min_new
         add_cache_bust) = Ok (products, ids, n) ->
  (1 <= n <= max_retries)%Z
  /\ (crawls (snd (fetch_until_new world base_url known page_idx max_retries
                     min_new add_cache_bust)) <= Z.to_nat max_retries)%nat
  /\ (products = [] /\ ids = [] \/ Forall2 has_id products ids /\ NoDup ids).
Proof.
  unfold fetch_until_new. intros Hr.
  pose proof (loop_crawls (Z.to_nat max_retries) 1 None) as Hc.
  apply loop_returns in Hr as [Hwf Hn]; [|done].
  split; [|split; [exact Hc|exact Hwf]].
  destruct Hn as [Hn|[-> [?|Hn]]]; [lia|congruence|lia].
Qed.




(** X7.  An empty budget: with [max_retries] zero or negative the loop
    body never runs and the engine raises [UnboundLocalError] without a
    single crawl or sleep. *)
Theorem fetch_until_new_empty_budget :
  (max_retries <= 0)%Z ->
  fetch_until_new world base_url known page_idx max_retries min_new
    add_cache_bust = (Raise UnboundLocalError, []).
Proof.
  intros Hm. unfold fetch_until_new.
  by replace (Z.to_nat max_retries) with O by lia.
Qed.

End EngineBounds.

Section Pacing.
Import ProductFetch.


End Pacing.

Section EngineBoundsExamples.
Import ProductFetch Notions Sample.

Lemma crawl_once_well_formed_witness :
  Forall2 has_id [item "A"; item "B"] ["A"; "B"] /\ NoDup ["A"; "B"].
Proof.
  apply (crawl_once_well_formed (page "<html>" ["A"; "B"])).
  vm_compute. reflexivity.
Defined.

Lemma fetch_until_new_budget_witness :
  (1 <= 2 <= 5)%Z
  /\ (crawls (snd (fetch_until_new stale_then_fresh base_url {["A"; "B"]}
                     1 5 1 true)) <= Z.to_nat 5)%nat
  /\ ([item "A"; item "C"] = [] /\ ["A"; "C"] = []
      \/ Forall2 has_id [item "A"; item "C"] ["A"; "C"] /\ NoDup ["A"; "C"]).
Proof.
  apply (fetch_until_new_budget stale_then_fresh base_url {["A"; "B"]}
           1 5 1 true).
  vm_compute. reflexivity.
Defined.


Lemma fetch_until_new_empty_budget_witness :
  fetch_until_new always_stale base_url {["A"; "B"]} 1 0 1 true
  = (Raise UnboundLocalError, []).
Proof.
  apply (fetch_until_new_empty_budget always_stale base_url {["A"; "B"]}
           1 0 1 true).
  lia.
Defined.


End EngineBoundsExamples.

(** ** Query strings *)

Section QueryStrings.
Import Urllib Notions.

(** What [quote_plus] makes of one character. *)
Lemma quote_plus_cons c r :
  quote_plus (String c r) = quote_plus (String c "") ++ quote_plus r.
Proof. simpl. by repeat case_match. Qed.

Lemma unquote_quoted_char c rest :
  unquote (Py.replace_char "+" " " (quote_plus (String c "") ++ rest))
  = String c (unquote (Py.replace_char "+" " " rest)).
Proof.
  destruct c as [[] [] [] [] [] [] [] []]; reflexivity.
Qed.

Lemma replace_char_app a b s t :
  Py.replace_char a b (s ++ t) = Py.replace_char a b s ++ Py.replace_char a b t.
Proof. induction s as [|c s IH]; simpl; [done|]. by rewrite IH. Qed.

(** Unquoting undoes quoting. *)
Lemma unquote_quote_plus s :
  unquote (Py.replace_char "+" " " (quote_plus s)) = s.
Proof.
  induction s as [|c s IH]; [done|].
  rewrite quote_plus_cons, unquote_quoted_char. by rewrite IH.
Qed.

Lemma contains_char_app c s t :
  Py.contains_char c (s ++ t) = Py.contains_char c s || Py.contains_char c t.
Proof.
  induction s as [|d s IH]; simpl; [done|]. rewrite IH. by rewrite orb_assoc.
Qed.

Lemma quoted_char_plain c :
  Py.contains_char "&" (quote_plus (String c "")) = false
  /\ Py.contains_char "=" (quote_plus (String c "")) = false.
Proof. destruct c as [[] [] [] [] [] [] [] []]; split; reflexivity. Qed.

(** Quoted text holds neither [&] nor [=]. *)
Lemma quote_plus_plain s :
  Py.contains_char "&" (quote_plus s) = false
  /\ Py.contains_char "=" (quote_plus s) = false.
Proof.
  induction s as [|c s [IH1 IH2]]; [done|].
  rewrite quote_plus_cons, !contains_char_app, IH1, IH2.
  by destruct (quoted_char_plain c) as [-> ->].
Qed.

Lemma partition_app c a b :
  Py.contains_char c a = false ->
  Py.partition c (a ++ String c b) = Some (a, b).
Proof.
  induction a as [|d a IH]; simpl.
  - by rewrite Ascii.eqb_refl.
  - intros [Hd Ha]%orb_false_iff. rewrite Hd, (IH Ha). done.
Qed.

Lemma split_plain c s :
  Py.contains_char c s = false -> Py.split c s = [s].
Proof.
  induction s as [|d s IH]; simpl; [done|].
  intros [Hd Hs]%orb_false_iff. by rewrite (IH Hs), Hd.
Qed.

Lemma split_app c a b :
  Py.contains_char c a = false ->
  Py.split c (a ++ String c b) = a :: Py.split c b.
Proof.
  induction a as [|d a IH]; simpl.
  - intros _. rewrite Ascii.eqb_refl.
    destruct (Py.split c b) eqn:Hb; [|done].
    by destruct b; simpl in Hb; repeat case_match.
  - intros [Hd Ha]%orb_false_iff. by rewrite (IH Ha), Hd.
Qed.

(** [split] undoes [join] on parts that hold no separator. *)
Lemma split_join c parts :
  parts <> [] ->
  Forall (fun s => Py.contains_char c s = false) parts ->
  Py.split c (Py.join (String c "") parts) = parts.
Proof.
  induction parts as [|x parts IH]; [done|]. intros _ Hall.
  apply Forall_cons in Hall as [Hx Hall].
  destruct parts as [|y parts]; [by apply split_plain|].
  change (Py.join (String c "") (x :: y :: parts))
    with (x ++ String c (Py.join (String c "") (y :: parts))).
  rewrite (split_app c x _ Hx). by rewrite IH.
Qed.

Lemma string_app_nil_inv a b : a ++ b = "" -> a = "" /\ b = "".
Proof. by destruct a. Qed.

Lemma encoded_pair_plain kv :
  Py.contains_char "&" (encoded_pair kv) = false /\ encoded_pair kv <> "".
Proof.
  unfold encoded_pair. split.
  - rewrite !contains_char_app.
    destruct (quote_plus_plain (fst kv)) as [-> _].
    by destruct (quote_plus_plain (snd kv)) as [-> _].
  - intros [_ Hq]%string_app_nil_inv. done.
Qed.

Lemma join_encoded_nonempty kv pairs :
  Py.join "&" (List.map encoded_pair (kv :: pairs)) <> "".
Proof.
  destruct pairs as [|kv' pairs]; simpl.
  - apply encoded_pair_plain.
  - intros [Hq _]%string_app_nil_inv. by apply (encoded_pair_plain kv).
Qed.

Lemma parse_urlencode pairs : parse_qsl (urlencode pairs) = pairs.
Proof.
  unfold parse_qsl, urlencode. fold encoded_pair.
  change (fun kv : string * string =>
            quote_plus (fst kv) ++ "=" ++ quote_plus (snd kv))
    with encoded_pair.
  destruct pairs as [|kv pairs]; [done|].
  destruct (String.eqb_spec (Py.join "&" (List.map encoded_pair (kv :: pairs)))
              "") as [He|_]; [by apply join_encoded_nonempty in He|].
  rewrite (split_join "&").
  - generalize (kv :: pairs). clear. intros pairs.
    induction pairs as [|[k v] pairs IH]; [done|].
    cbn [List.map flat_map]. rewrite IH.
    destruct (String.eqb_spec (encoded_pair (k, v)) "") as [He|_];
      [by apply encoded_pair_plain in He|].
    change (encoded_pair (k, v))
      with (quote_plus k ++ String "=" (quote_plus v)).
    rewrite (partition_app "=" (quote_plus k) (quote_plus v));
      [|apply quote_plus_plain].
    by rewrite !unquote_quote_plus.
  - done.
  - apply Forall_forall.
    intros x (kv' & <- & _)%list_elem_of_In%in_map_iff.
    apply encoded_pair_plain.
Qed.

(** X9.  Round trip of the query string: parsing what [urlencode] wrote
    gives back the pairs, in order, whatever characters the keys and the
    values hold. *)
Theorem parse_qsl_urlencode (pairs : list (string * string)) :
  parse_qsl (urlencode pairs) = pairs.
Proof. apply parse_urlencode. Qed.

End QueryStrings.

Section QueryParameters.
Import ProductFetch.
Context `{PyLib}.

Lemma dict_set_nodup {V} k (v : V) d :
  NoDup (PyDict.keys d) -> NoDup (PyDict.keys (PyDict.set k v d)).
Proof.
  intros Hnd. destruct (decide (k ∈ PyDict.keys d)) as [Hin|Hnot].
  - by rewrite dict_set_keys.
  - rewrite dict_set_new by done. unfold PyDict.keys. rewrite map_app.
    apply NoDup_app. split_and!; [done| |apply NoDup_singleton].
    intros x Hx ->%list_elem_of_singleton. done.
Qed.

Lemma dict_fold_nodup {V} (pairs : list (string * V)) : forall d,
  NoDup (PyDict.keys d) ->
  NoDup (PyDict.keys
           (fold_left (fun d kv => PyDict.set (fst kv) (snd kv) d) pairs d)).
Proof.
  induction pairs as [|kv pairs IH]; intros d Hd; [done|].
  simpl. by apply IH, dict_set_nodup.
Qed.

Lemma dict_fold_get {V} (pairs : list (string * V)) k : forall d,
  PyDict.get k
    (fold_left (fun d kv => PyDict.set (fst kv) (snd kv) d) pairs d)
  = match PyDict.get k (List.rev pairs) with
    | Some v => Some v
    | None => PyDict.get k d
    end.
Proof.
  induction pairs as [|[k' v'] pairs IH]; intros d; [done|].
  simpl. rewrite IH. clear IH.
  assert (Hrev : forall l : list (string * V),
            PyDict.get k (l ++ [(k', v')])%list
            = match PyDict.get k l with
              | Some v => Some v
              | None => if String.eqb k' k then Some v' else None
              end).
  { induction l as [|[k0 v0] l IHl]; simpl;
      [by destruct (String.eqb k' k)|].
    rewrite IHl. by destruct (String.eqb k0 k). }
  rewrite Hrev. destruct (PyDict.get k (List.rev pairs)); [done|].
  destruct (String.eqb_spec k' k) as [->|Hne].
  - apply dict_get_set_eq.
  - by apply dict_get_set_ne.
Qed.

(** X10.  [set_query_param] raises [ValueError] exactly when [urlparse]
    refuses the URL.  Otherwise it rebuilds the URL with a new query in
    which every key stands once: [key] carries [value], every other key
    the value of its last occurrence in the old query, and nothing else of
    the URL changes. *)
Theorem set_query_param_spec (url key value : string) :
  match Urllib.urlparse url "" with
  | None => set_query_param url key value = Raise ValueError
  | Some p =>
      exists new_query,
        set_query_param url key value
        = Ok (Urllib.urlunparse (Urllib.scheme p) (Urllib.netloc p)
                (Urllib.path p) (Urllib.params p) new_query
                (Urllib.fragment p))
        /\ NoDup (PyDict.keys (Urllib.parse_qsl new_query))
        /\ PyDict.get key (Urllib.parse_qsl new_query) = Some value
        /\ forall k, k <> key ->
             PyDict.get k (Urllib.parse_qsl new_query)
             = PyDict.get k (List.rev (Urllib.parse_qsl (Urllib.query p)))
  end.
Proof.
  unfold set_query_param.
  destruct (Urllib.urlparse url "") as [p|]; simpl; [|done].
  eexists. split; [reflexivity|]. rewrite parse_urlencode.
  split_and!.
  - apply dict_set_nodup. unfold PyDict.of_pairs. apply dict_fold_nodup.
    constructor.
  - apply dict_get_set_eq.
  - intros k Hk. rewrite dict_get_set_ne by done.
    unfold PyDict.of_pairs. rewrite dict_fold_get. by case_match.
Qed.

End QueryParameters.

(** ** Text: sub-strings, ends and path normal form *)

Section TextFacts.

Lemma startswith_iff s p :
  Py.startswith s p = true <-> exists post, s = p ++ post.
Proof.
  revert s. induction p as [|a p IH]; intros s; simpl.
  - split; [by exists s|done].
  - destruct s as [|b s].
    + split; [done|]. by intros [post ?].
    + rewrite andb_true_iff, Ascii.eqb_eq, IH. split.
      * intros [-> [post ->]]. by exists post.
      * intros [post [= -> ->]]. split; [done|]. by exists post.
Qed.

(** [p in s] holds exactly when [s] is some text, [p], some text. *)
Lemma contains_iff p s :
  Py.contains p s = true <-> exists pre post, s = pre ++ p ++ post.
Proof.
  induction s as [|c s IH].
  - simpl. rewrite orb_false_r, startswith_iff. split.
    + intros [post Hs]. by exists "", post.
    + intros ([|] & post & Hs); [by exists post|done].
  - change (Py.contains p (String c s))
      with (Py.startswith (String c s) p || Py.contains p s).
    rewrite orb_true_iff, startswith_iff, IH. split.
    + intros [[post Hs]|(pre & post & ->)].
      * by exists "", post.
      * by exists (String c pre), post.
    + intros ([|d pre] & post & Hs).
      * left. by exists post.
      * right. injection Hs as -> ->. by exists pre, post.
Qed.

Lemma append_assoc (a b c : string) : (a ++ b) ++ c = a ++ b ++ c.
Proof.
  induction a as [|x a IH]; [done|].
  change (String x ((a ++ b) ++ c) = String x (a ++ b ++ c)). by rewrite IH.
Qed.

Lemma append_nil_r (a : string) : a ++ "" = a.
Proof.
  induction a as [|x a IH]; [done|].
  change (String x (a ++ "") = String x a). by rewrite IH.
Qed.

Lemma contains_app_l p s t :
  Py.contains p s = true -> Py.contains p (s ++ t) = true.
Proof.
  rewrite !contains_iff. intros (pre & post & ->).
  exists pre, (post ++ t). by rewrite !append_assoc.
Qed.

Lemma contains_app_r p s t :
  Py.contains p s = true -> Py.contains p (t ++ s) = true.
Proof.
  rewrite !contains_iff. intros (pre & post & ->).
  exists (t ++ pre), post. by rewrite !append_assoc.
Qed.

Lemma rev_onto_app s t acc :
  Py.rev_onto (s ++ t) acc = Py.rev_onto t (Py.rev_onto s acc).
Proof. revert acc. induction s as [|c s IH]; intros acc; simpl; done. Qed.

Lemma rev_snoc s c : Py.rev (s ++ String c "") = String c (Py.rev s).
Proof. unfold Py.rev. by rewrite rev_onto_app. Qed.

Lemma string_snoc s : s <> "" -> exists u c, s = u ++ String c "".
Proof.
  induction s as [|c s IH]; [done|]. intros _.
  destruct s as [|d s]; [by exists "", c|].
  destruct IH as (u & e & ->); [done|]. by exists (String c u), e.
Qed.

Lemma endswith_snoc u c : Py.endswith (u ++ String c "") "/" = Ascii.eqb "/" c.
Proof.
  unfold Py.endswith. rewrite rev_snoc. simpl. apply andb_true_r.
Qed.

Lemma endswith_slash s :
  Py.endswith s "/" = true <-> exists u, s = u ++ "/".
Proof.
  split.
  - intros He. destruct (decide (s = "")) as [->|Hne]; [done|].
    destruct (string_snoc s Hne) as (u & c & ->).
    rewrite endswith_snoc in He. apply Ascii.eqb_eq in He as <-.
    by exists u.
  - intros [u ->]. by rewrite endswith_snoc.
Qed.

Lemma length_snoc u c : String.length (u ++ String c "") = S (String.length u).
Proof. induction u as [|d u IH]; simpl; [done|]. by rewrite IH. Qed.

Lemma take_length_app u t : Py.take (String.length u) (u ++ t) = u.
Proof. induction u as [|d u IH]; simpl; [by destruct t|]. by rewrite IH. Qed.

Lemma drop_last_snoc u c : Py.drop_last (u ++ String c "") = u.
Proof.
  unfold Py.drop_last. rewrite length_snoc.
  replace (S (String.length u) - 1)%nat with (String.length u) by lia.
  apply take_length_app.
Qed.

End TextFacts.

Section PathNormalForm.
Import RetrieveCategory Notions.

Lemma collapse_cons c r :
  collapse_slashes (String c r)
  = if Ascii.eqb c "/" && Py.startswith r "/" then collapse_slashes r
    else String c (collapse_slashes r).
Proof. reflexivity. Qed.

Lemma startswith_slash r :
  Py.startswith r "/" = match r with
                        | String c _ => Ascii.eqb c "/"
                        | EmptyString => false
                        end.
Proof.
  destruct r as [|c r]; simpl; [done|].
  by rewrite andb_true_r, Ascii.eqb_sym.
Qed.

Lemma collapse_head r :
  Py.startswith (collapse_slashes r) "/" = Py.startswith r "/".
Proof.
  induction r as [|d r IH]; [done|]. rewrite collapse_cons.
  destruct (Ascii.eqb d "/" && Py.startswith r "/") eqn:Hc.
  - apply andb_true_iff in Hc as [Hd Hr]. rewrite IH, Hr.
    rewrite startswith_slash. done.
  - by rewrite !startswith_slash.
Qed.

Lemma contains_double c r :
  Py.contains "//" (String c r)
  = (Ascii.eqb c "/" && Py.startswith r "/") || Py.contains "//" r.
Proof.
  change (Py.contains "//" (String c r))
    with (Py.startswith (String c r) "//" || Py.contains "//" r).
  f_equal.
  all: destruct r as [|d r]; simpl; by rewrite ?(Ascii.eqb_sym "/" c).
Qed.

Lemma collapse_no_double s : Py.contains "//" (collapse_slashes s) = false.
Proof.
  induction s as [|c s IH]; [done|]. rewrite collapse_cons.
  destruct (Ascii.eqb c "/" && Py.startswith s "/") eqn:Hc; [done|].
  by rewrite contains_double, collapse_head, Hc, IH.
Qed.

Lemma collapse_fixed s :
  Py.contains "//" s = false -> collapse_slashes s = s.
Proof.
  induction s as [|c s IH]; [done|]. rewrite contains_double.
  intros [Hc Hs]%orb_false_iff. by rewrite collapse_cons, Hc, (IH Hs).
Qed.

Lemma collapse_nonempty s : s <> "" -> collapse_slashes s <> "".
Proof.
  induction s as [|c s IH]; [done|]. intros _. rewrite collapse_cons.
  destruct (Ascii.eqb c "/" && Py.startswith s "/") eqn:Hc; [|done].
  apply IH. apply andb_true_iff in Hc as [_ Hs]. by destruct s.
Qed.

Lemma normalize_fixed path : normal_path path -> normalize_path path = path.
Proof.
  intros (Hne & Hd & He). unfold normalize_path.
  apply String.eqb_neq in Hne. rewrite Hne, (collapse_fixed _ Hd).
  destruct (Py.endswith path "/") eqn:Hend; [|by rewrite andb_false_r].
  by rewrite (He eq_refl).
Qed.

Lemma normalize_normal path : normal_path (normalize_path path).
Proof.
  unfold normalize_path.
  destruct (String.eqb_spec path "") as [->|Hne]; [by split_and!|].
  pose proof (collapse_no_double path) as Hd.
  pose proof (collapse_nonempty path Hne) as Hn.
  destruct ((1 <? String.length (collapse_slashes path))%nat
            && Py.endswith (collapse_slashes path) "/") eqn:Hc.
  - apply andb_true_iff in Hc as [Hlen [u Hu]%endswith_slash].
    rewrite Hu in *. change "/" with (String "/" "") in *.
    rewrite drop_last_snoc. rewrite length_snoc in Hlen.
    apply Nat.ltb_lt in Hlen.
    assert (Hdu : Py.contains "//" u = false).
    { destruct (Py.contains "//" u) eqn:Hcu; [|done].
      by rewrite (contains_app_l _ _ _ Hcu) in Hd. }
    split_and!; [by destruct u; simpl in Hlen; [lia|]|done|].
    intros [v ->]%endswith_slash. exfalso.
    assert (Hx : Py.contains "//" ((v ++ "/") ++ String "/" "") = true).
    { apply contains_iff. exists v, "". by rewrite append_assoc. }
    by rewrite Hx in Hd.
  - split_and!; [done|done|].
    intros Hend. rewrite Hend, andb_true_r in Hc.
    apply Nat.ltb_ge in Hc. apply endswith_slash in Hend as [u Hu].
    rewrite Hu in *. change "/" with (String "/" "") in Hc.
    rewrite length_snoc in Hc. by destruct u; simpl in Hc; [|lia].
Qed.

(** X11.  [normalize_path] gives a path in normal form: never empty,
    without two slashes in a row, and with no slash at the end unless the
    path is the root [/]; on such a path it changes nothing, so normalizing
    twice is normalizing once. *)
Theorem normalize_path_idempotent (path : string) :
  normalize_path path <> ""
  /\ Py.contains "//" (normalize_path path) = false
  /\ (Py.endswith (normalize_path path) "/" = true -> normalize_path path = "/")
  /\ normalize_path (normalize_path path) = normalize_path path.
Proof.
  pose proof (normalize_normal path) as Hn.
  pose proof (normalize_fixed _ Hn). destruct Hn as (? & ? & ?). done.
Qed.

End PathNormalForm.

(** ** The block detector *)

Section BlockDetector.
Import ProductFetch.

Lemma keyword_nonempty k : In k BLOCK_KEYWORDS -> k <> "".
Proof. unfold BLOCK_KEYWORDS. simpl. intros Hk ->. naive_solver. Qed.

(** X12.  [looks_blocked] flags a markup exactly when its lower-case form
    holds one of the block keywords as a sub-string; empty markup is never
    flagged. *)
Theorem looks_blocked_iff (html : string) :
  looks_blocked html = true
  <-> exists k pre post,
        In k BLOCK_KEYWORDS /\ Py.lower html = pre ++ k ++ post.
Proof.
  unfold looks_blocked. split.
  - destruct (String.eqb html ""); [done|].
    intros (k & Hk & Hc)%existsb_exists.
    apply contains_iff in Hc as (pre & post & Hl). by exists k, pre, post.
  - intros (k & pre & post & Hk & Hl).
    destruct (String.eqb_spec html "") as [->|_].
    + exfalso. apply (keyword_nonempty k Hk).
      simpl in Hl. symmetry in Hl.
      apply string_app_nil_inv in Hl as [_ Hl].
      by apply string_app_nil_inv in Hl as [Hl _].
    + apply existsb_exists. exists k. split; [done|].
      apply contains_iff. by exists pre, post.
Qed.

(** X13.  The detector does not see letter case: two markups with the
    same lower-case form get the same answer. *)
Theorem looks_blocked_caseless (a b : string) :
  Py.lower a = Py.lower b -> looks_blocked a = looks_blocked b.
Proof.
  intros Hl. unfold looks_blocked. rewrite Hl.
  destruct a, b; simpl in *; done.
Qed.

End BlockDetector.

Section BlockDetectorExamples.
Import ProductFetch.

Lemma looks_blocked_caseless_witness :
  looks_blocked "<h1>ACCESS Denied</h1>"
  = looks_blocked "<H1>access denied</H1>".
Proof. apply looks_blocked_caseless. reflexivity. Defined.

End BlockDetectorExamples.

(** ** Invariants of the harvest *)

Section HarvestInvariants.
Import ProductFetch Notions.
Context `{PyLib}.
Variable w : World.

Lemma index_products_keys products : forall d d',
  NoDup (PyDict.keys d) ->
  index_products products d = Ok d' -> NoDup (PyDict.keys d').
Proof.
  induction products as [|p products IH]; intros d d' Hd; simpl.
  - by intros [= <-].
  - destruct (get_product_id p) as [pid|]; simpl; [|done].
    apply IH. case_match; [done|]. by apply dict_set_nodup.
Qed.

Lemma merge_page_growth products : forall known store fresh known' store' fresh',
  store_ok known store ->
  merge_page products known store fresh = Ok (known', store', fresh') ->
  (length store' + length fresh = length store + length fresh')%nat.
Proof.
  induction products as [|p products IH];
    intros known store fresh known' store' fresh' Hok; simpl.
  - by intros [= <- <- <-].
  - destruct (get_product_id p) as [pid|]; simpl; [|done].
    destruct (negb (String.eqb pid "") && negb (bool_decide (pid ∈ known)))
      eqn:Hnew.
    + apply andb_true_iff in Hnew as [_ Hnew].
      apply negb_true_iff, bool_decide_eq_false in Hnew.
      destruct (store_ok_add known store pid p Hok Hnew) as [Hok' Hset].
      intros Hm. apply (IH _ _ _ _ _ _ Hok') in Hm.
      rewrite Hset in Hm. rewrite !length_app in Hm. simpl in Hm. lia.
    + by apply IH.
Qed.

Lemma merge_page_returns products ids : forall known store fresh,
  Forall2 has_id products ids ->
  exists r, merge_page products known store fresh = Ok r.
Proof.
  revert ids. induction products as [|p products IH];
    intros ids known store fresh Hall; simpl; [by eexists|].
  inversion Hall as [|? pid ? ids' [Hp _] Hall']; subst.
  rewrite Hp. simpl. case_match; by apply (IH ids').
Qed.

Lemma page_step_grown page_idx base_url st st' :
  store_ok (known_ids st) (all_products_by_id st) ->
  page_step w page_idx base_url st = Finished st' -> grown st st'.
Proof.
  intros Hok. unfold page_step.
  destruct (fetch_until_new _ _ _ _ _ _ _) as [[[[products ids] n]|e] trace];
    [|done].
  destruct products as [|p products]; [by intros [= <-]|].
  destruct (merge_page _ _ _ _) as [[[known store] fresh]|e] eqn:Hm; [|done].
  destruct (merge_page_keeps _ _ _ _ _ _ _ Hok Hm) as [Hok' Hkeep].
  pose proof (merge_page_growth _ _ _ _ _ _ _ Hok Hm) as Hlen.
  simpl in Hlen |- *.
  destruct (index_set _ _ _) as [index|e]; [|done]. simpl.
  destruct fresh as [|x fresh]; intros [= <-]; unfold grown, logged; simpl;
    (split_and!; [done|done|simpl in Hlen; lia]).
Qed.

Lemma pages_loop_grown urls : forall page_idx st st',
  store_ok (known_ids st) (all_products_by_id st) ->
  pages_loop w urls page_idx st = Finished st' -> grown st st'.
Proof.
  induction urls as [|url urls IH]; intros page_idx st st' Hok; simpl.
  - intros [= <-]. by split_and!.
  - destruct (page_step w page_idx url st) as [st1|] eqn:Hs; [|done].
    destruct (page_step_grown _ _ _ _ Hok Hs) as (Hok1 & Hk1 & Hl1).
    intros Hl. destruct (IH _ _ _ Hok1 Hl) as (Hok2 & Hk2 & Hl2).
    split_and!; [done|by eauto|lia].
Qed.

(** X14.  The store of a run is well formed and only grows: after any
    number of pages, [known_ids] is the key set of the store, every
    identity has one entry, every record the run started with is still
    stored unchanged, and [total_new_added] counts the entries added. *)
Theorem harvest_store_grows (link : string) (disk0 : gmap string json)
        (n : nat) (st0 st : Harvest) (urls : list string) :
  start w link disk0 = Ok (st0, urls) ->
  after_pages w link disk0 n = Finished st ->
  store_ok (known_ids st) (all_products_by_id st)
  /\ (forall pid r, PyDict.get pid (all_products_by_id st0) = Some r ->
                    PyDict.get pid (all_products_by_id st) = Some r)
  /\ (Z.of_nat (length (all_products_by_id st))
      = Z.of_nat (length (all_products_by_id st0)) + total_new_added st)%Z.
Proof.
  intros Hs. unfold after_pages. rewrite Hs. intros Hl.
  assert (Hok0 : store_ok (known_ids st0) (all_products_by_id st0)
                 /\ total_new_added st0 = 0%Z).
  { revert Hs. unfold start.
    destruct (index_products _ _) as [store|] eqn:Hi; simpl; [|done].
    destruct (detect_total_pages _ _); simpl; [|done].
    destruct (page_urls _ _); simpl; [|done].
    intros [= <- _]. simpl. split; [|done]. split; [done|].
    eapply (index_products_keys _ []); [constructor|exact Hi]. }
  destruct Hok0 as [Hok0 Hz].
  destruct (pages_loop_grown _ _ _ _ Hok0 Hl) as (? & ? & ?).
  split_and!; [done|done|lia].
Qed.

(** X15.  A pages index that is not an object: when the loaded
    [pages_index.json] holds anything but a JSON object, the first page that
    brings products stops the run with [TypeError], and nothing is written
    for it. *)
Theorem pages_index_type_error (page_idx : Z) (base_url : string)
        (st : Harvest) (products : list json) (ids : list string) (n : Z) :
  match pages_index st with JObj _ => False | _ => True end ->
  fst (fetch_until_new (page_world w page_idx) base_url (known_ids st)
         page_idx MAX_RETRIES MIN_NEW_PER_PAGE ADD_CACHE_BUST)
  = Ok (products, ids, n) ->
  products <> [] ->
  exists events,
    page_step w page_idx base_url st = Crashed TypeError (disk st) events.
Proof.
  intros Hidx Hf Hne. unfold page_step.
  pose proof Hf as Hwf. unfold fetch_until_new in Hwf.
  apply loop_returns in Hwf as [Hwf _]; [|done].
  destruct (fetch_until_new _ _ _ _ _ _ _) as [r trace]. simpl in Hf.
  subst r. destruct products as [|p products]; [done|].
  destruct Hwf as [[? _]|[Hall _]]; [done|].
  cbn [logged known_ids all_products_by_id pages_index disk log].
  destruct (merge_page_returns (p :: products) ids (known_ids st)
              (all_products_by_id st) [] Hall) as [[[known store] fresh] ->].
  cbn [index_set pages_index disk].
  destruct (pages_index st); try done; by eexists.
Qed.

End HarvestInvariants.

(** ** The discovery of categories *)

Section Discovery.
Import RetrieveCategory CategoryDiscovery Notions.
Context `{PyLib}.
Variables (world : Z -> Refresh) (home_url : string).

Lemma crawls_app (l l' : list event) :
  crawls (l ++ l') = (crawls l + crawls l')%nat.
Proof. unfold crawls. by rewrite List.filter_app, length_app. Qed.

(** What [absorb] does to the known categories. *)
Lemma absorb_spec items : forall known fresh known' fresh',
  absorb home_url items known fresh = Ok (known', fresh') ->
  (forall key c, PyDict.get key known = Some c ->
                 PyDict.get key known' = Some c)
  /\ (NoDup (PyDict.keys known) -> NoDup (PyDict.keys known'))
  /\ exists added,
       fresh' = (fresh ++ added)%list
       /\ length known' = (length known + length added)%nat
       /\ (added = [] -> known' = known).
Proof.
  induction items as [|it items IH]; intros known fresh known' fresh'; simpl.
  - intros [= <- <-]. split_and!; [done|done|].
    exists []. by rewrite app_nil_r.
  - destruct (canonicalize_category_link home_url (category_link it))
      as [[canonical key]|]; simpl; [|done].
    destruct (PyDict.mem key known) eqn:Hmem; [by apply IH|].
    intros Ha. apply IH in Ha as (Hget & Hnd & added & -> & Hlen & _).
    assert (Hnot : key ∉ PyDict.keys known).
    { intros Hin%dict_mem_keys. congruence. }
    rewrite (dict_set_new _ _ _ Hnot) in *. split_and!.
    + intros k c Hk. apply Hget. rewrite dict_get_app_new; [done|].
      intros ->. apply Hnot, dict_get_keys. by eexists.
    + intros Hk. apply Hnd. unfold PyDict.keys. rewrite map_app.
      apply NoDup_app. split_and!; [done| |apply NoDup_singleton].
      intros x Hx ->%list_elem_of_singleton. done.
    + exists (mkCategory (category_name it) canonical :: added).
      split_and!; [by rewrite <- app_assoc| |done].
      rewrite length_app in Hlen. simpl in *. lia.
Qed.

Lemma write_same path data st :
  files (write path data st) !! path = Some data.
Proof. apply written_same. Qed.

Lemma write_crawls path data st :
  crawls (trace (write path data st)) = crawls (trace st).
Proof.
  unfold write. cbn [trace]. rewrite crawls_app. unfold crawls at 2.
  simpl. lia.
Qed.

Lemma crawls_snoc_crawl l p a u :
  crawls (l ++ [EvCrawl p a u]) = S (crawls l).
Proof. rewrite crawls_app. unfold crawls at 2. simpl. lia. Qed.

Lemma crawls_snoc_sleep l k q : crawls (l ++ [EvSleep k q]) = crawls l.
Proof. rewrite crawls_app. unfold crawls at 2. simpl. lia. Qed.

(** One refresh: the outcome by cases. *)
Lemma refresh_step_spec w attempt st :
  match refresh_step w home_url attempt st with
  | Next st' | Stopped st' =>
      persisted st' /\ extends st st'
      /\ crawls (trace st') = S (crawls (trace st))
      /\ (no_new_streak st' = 0%Z
          \/ no_new_streak st' = (no_new_streak st + 1)%Z
             /\ known st' = known st)
  | Failed _ disk _ => disk = files st
  end
  /\ match refresh_step w home_url attempt st with
     | Next st' => (no_new_streak st' < STOP_AFTER_NO_NEW_STREAK)%Z
     | Stopped st' => (STOP_AFTER_NO_NEW_STREAK <= no_new_streak st')%Z
     | Failed _ _ _ => True
     end.
Proof.
  unfold refresh_step.
  destruct (absorb home_url (refresh_items w home_url) (known st) [])
    as [[known' fresh]|e] eqn:Ha; [|done].
  destruct (absorb_spec _ _ _ _ _ Ha)
    as (Hget & Hnd & added & Hadd & Hlen & Hfresh).
  simpl in Hadd. subst added.
  cbv zeta.
  set (st1 := match fresh with
              | [] => mkDiscovery known' (new_total st) (no_new_streak st + 1)
                        (files st) (trace st ++ [EvCrawl 0 attempt
                                                   (refresh_url home_url w)])
              | _ => _
              end).
  assert (H1 : known st1 = known'
               /\ (Z.of_nat (length known') - new_total st1
                   = Z.of_nat (length (known st)) - new_total st)%Z
               /\ crawls (trace st1) = S (crawls (trace st))
               /\ (no_new_streak st1 = 0%Z
                   \/ no_new_streak st1 = (no_new_streak st + 1)%Z
                      /\ fresh = [])).
  { subst st1. destruct fresh as [|c fresh].
    - cbn [known new_total trace no_new_streak].
      split_and!; [done|simpl in Hlen; lia|apply crawls_snoc_crawl|by right].
    - split_and!; [done| | |by left].
      + cbn [known new_total write]. simpl in Hlen. simpl length. lia.
      + rewrite write_crawls. apply crawls_snoc_crawl. }
  destruct H1 as (Hk & Hn & Hc & Hs).
  set (st2 := write CATEGORIES_FILE _ st1).
  assert (H2 : persisted st2 /\ extends st st2
               /\ crawls (trace st2) = S (crawls (trace st))
               /\ (no_new_streak st2 = 0%Z
                   \/ no_new_streak st2 = (no_new_streak st + 1)%Z
                      /\ known st2 = known st)).
  { subst st2. unfold persisted, extends. rewrite write_crawls.
    cbn [known new_total no_new_streak write]. rewrite Hk. split_and!.
    - apply written_same.
    - done.
    - done.
    - done.
    - done.
    - destruct Hs as [?|[? ?]]; [by left|right]. split; [done|by apply Hfresh]. }
  destruct (STOP_AFTER_NO_NEW_STREAK <=? no_new_streak st2)%Z eqn:Hstop.
  - split; [done|]. by apply Z.leb_le.
  - split; [|by apply Z.leb_gt].
    destruct H2 as (Hp & He & Hc2 & Hs2). unfold persisted, extends in *.
    cbn [known new_total no_new_streak files trace].
    rewrite crawls_snoc_sleep. done.
Qed.

Lemma extends_refl st : extends st st.
Proof. by split_and!. Qed.

Lemma extends_trans st1 st2 st3 :
  extends st1 st2 -> extends st2 st3 -> extends st1 st3.
Proof.
  intros (H1 & H2 & H3) (H4 & H5 & H6). split_and!; [eauto|eauto|lia].
Qed.

(** The loop: it ends stopped or failed, its known categories only grow,
    and it crawls once per turn. *)
Lemma refresh_loop_spec todo : forall attempt st,
  match refresh_loop world home_url todo attempt st with
  | Next _ => False
  | Stopped st' =>
      extends st st' /\ (persisted st \/ todo <> O -> persisted st')
      /\ (crawls (trace st') <= crawls (trace st) + todo)%nat
  | Failed _ disk _ =>
      exists st', extends st st' /\ disk = files st'
                  /\ (st' = st \/ persisted st')
  end.
Proof.
  induction todo as [|todo IH]; intros attempt st; simpl.
  - split_and!; [apply extends_refl|by intros [?|?]|lia].
  - pose proof (refresh_step_spec (world attempt) attempt st) as [Hs _].
    destruct (refresh_step (world attempt) home_url attempt st)
      as [st1|st1|e disk evs].
    + destruct Hs as (Hp & He & Hc & _).
      specialize (IH (attempt + 1)%Z st1).
      destruct (refresh_loop world home_url todo (attempt + 1) st1)
        as [|st2|e disk evs]; [done| |].
      * destruct IH as (He2 & Hp2 & Hc2). split_and!.
        -- by apply (extends_trans st st1).
        -- intros _. apply Hp2. by left.
        -- lia.
      * destruct IH as (st' & He2 & Hd & Hor). exists st'. split_and!.
        -- by apply (extends_trans st st1).
        -- done.
        -- right. by destruct Hor as [->|?].
    + destruct Hs as (Hp & He & Hc & _). split_and!; [done|done|lia].
    + exists st. split_and!; [apply extends_refl|done|by left].
Qed.

(** X16.  In the discovery flow the categories file follows every
    refresh: a refresh that completes leaves on disk exactly the categories
    known at that point, and one that fails leaves the disk as it was; so
    a run of one refresh or more that stops has its categories on disk. *)
Theorem categories_persisted_each_refresh :
  (forall (w : Refresh) (attempt : Z) (st : Discovery),
     match refresh_step w home_url attempt st with
     | Next st' | Stopped st' => persisted st'
     | Failed _ disk _ => disk = files st
     end)
  /\ (forall (refreshes : Z) (disk0 : gmap string json),
        match collect_categories_multiple_refreshes world home_url refreshes
                disk0 with
        | Next _ => False
        | Stopped st' => (1 <= refreshes)%Z -> persisted st'
        | Failed _ disk _ =>
            disk = disk0 \/ exists st', disk = files st' /\ persisted st'
        end).
Proof.
  split.
  - intros w attempt st.
    pose proof (refresh_step_spec w attempt st) as [Hs _].
    destruct (refresh_step w home_url attempt st); tauto.
  - intros refreshes disk0. unfold collect_categories_multiple_refreshes.
    destruct (reload _ _ _) as [known0|e]; [|by left].
    pose proof (refresh_loop_spec (Z.to_nat refreshes) 1
                  (mkDiscovery known0 0 0 disk0 [])) as Hl.
    destruct (refresh_loop _ _ _ _ _) as [|st'|e disk evs]; [done| |].
    + destruct Hl as (_ & Hp & _). intros Hr. apply Hp. right. lia.
    + destruct Hl as (st' & _ & -> & [->|Hp]); [by left|right].
      by exists st'.
Qed.



(** A refresh that brings nothing new. *)
Lemma refresh_step_idle w attempt st :
  absorb home_url (refresh_items w home_url) (known st) [] = Ok (known st, []) ->
  exists st',
    refresh_step w home_url attempt st
    = (if (STOP_AFTER_NO_NEW_STREAK <=? no_new_streak st + 1)%Z
       then Stopped st' else Next st')
    /\ known st' = known st
    /\ new_total st' = new_total st
    /\ no_new_streak st' = (no_new_streak st + 1)%Z
    /\ crawls (trace st') = S (crawls (trace st)).
Proof.
  intros Ha. unfold refresh_step. rewrite Ha. cbv zeta.
  cbn [no_new_streak write known new_total files trace].
  destruct (STOP_AFTER_NO_NEW_STREAK <=? no_new_streak st + 1)%Z;
    eexists; (split; [reflexivity|]);
    cbn [no_new_streak write known new_total files trace];
    split_and!; try done.
  - by rewrite crawls_app, crawls_snoc_crawl.
  - by rewrite crawls_snoc_sleep, crawls_app, crawls_snoc_crawl.
Qed.

Lemma refresh_loop_idle known0 todo : forall attempt st,
  known st = known0 ->
  (0 <= no_new_streak st < STOP_AFTER_NO_NEW_STREAK)%Z ->
  (forall j, (attempt <= j < attempt + Z.of_nat todo)%Z ->
     absorb home_url (refresh_items (world j) home_url) known0 []
     = Ok (known0, [])) ->
  exists st',
    refresh_loop world home_url todo attempt st = Stopped st'
    /\ known st' = known0
    /\ new_total st' = new_total st
    /\ crawls (trace st')
       = (crawls (trace st)
          + Nat.min todo (Z.to_nat (STOP_AFTER_NO_NEW_STREAK
                                    - no_new_streak st)))%nat.
Proof.
  induction todo as [|todo IH]; intros attempt st Hk Hs Hall.
  - exists st. simpl. split_and!; [done|done|done|lia].
  - destruct (refresh_step_idle (world attempt) attempt st)
      as (st1 & Hstep & Hk1 & Hn1 & Hs1 & Hc1).
    { rewrite Hk. apply Hall. lia. }
    cbn [refresh_loop]. rewrite Hstep.
    destruct (Z.leb_spec STOP_AFTER_NO_NEW_STREAK (no_new_streak st + 1)).
    + exists st1. split_and!; [done|congruence|done|].
      rewrite Hc1. unfold STOP_AFTER_NO_NEW_STREAK in *. lia.
    + destruct (IH (attempt + 1)%Z st1) as (st' & Hl & Hk' & Hn' & Hc').
      * congruence.
      * lia.
      * intros j Hj. apply Hall. lia.
      * exists st'. split_and!; [done|done|congruence|].
        rewrite Hc', Hc1, Hs1. unfold STOP_AFTER_NO_NEW_STREAK in *. lia.
Qed.

(** X18.  Early stop: when no refresh brings a category that is not known
    already, the run stops after [STOP_AFTER_NO_NEW_STREAK] = 8 refreshes,
    or after [refreshes] of them when that is less; it crawls exactly that
    often and adds nothing. *)
Theorem early_stop_after_idle_streak (refreshes : Z)
        (disk0 : gmap string json) (known0 : PyDict.t Category) :
  reload home_url
    (match disk0 !! CATEGORIES_FILE with
     | Some (JArr l) => l
     | _ => []
     end) [] = Ok known0 ->
  (forall j, (1 <= j <= refreshes)%Z ->
     absorb home_url (refresh_items (world j) home_url) known0 []
     = Ok (known0, [])) ->
  exists st,
    collect_categories_multiple_refreshes world home_url refreshes disk0
    = Stopped st
    /\ known st = known0
    /\ new_total st = 0%Z
    /\ Z.of_nat (crawls (trace st))
       = Z.max 0 (Z.min refreshes STOP_AFTER_NO_NEW_STREAK).
Proof.
  intros Hr Hall. unfold collect_categories_multiple_refreshes.
  replace (default [] match disk0 !! CATEGORIES_FILE with
                      | Some (JArr l) => Some l
                      | Some _ => None
                      | None => Some []
                      end)
    with (match disk0 !! CATEGORIES_FILE with
          | Some (JArr l) => l
          | _ => []
          end) by (by repeat case_match).
  rewrite Hr.
  destruct (refresh_loop_idle known0 (Z.to_nat refreshes) 1
              (mkDiscovery known0 0 0 disk0 []))
    as (st & Hl & Hk & Hn & Hc); [done|done| |].
  - intros j Hj. apply Hall. lia.
  - exists st. split_and!; [done|done|done|].
    rewrite Hc. simpl. unfold STOP_AFTER_NO_NEW_STREAK. lia.
Qed.

End Discovery.

Section DiscoveryExamples.
Import CategoryDiscovery Notions SampleCategories.

(** One refresh of the homepage with the one tile: the category is known
    under its key, written to [refresh_1.json] and to the categories
    file. *)
Lemma discovery_example :
  exists st,
    @collect_categories_multiple_refreshes lib one_tile HOMEPAGE_URL 1 ∅
    = Stopped st
    /\ known st = [("daraz.com.bd/sanders", sanders)]
    /\ new_total st = 1%Z
    /\ files st !! CATEGORIES_FILE = Some (categories_json [sanders])
    /\ files st !! refresh_file 1 = Some (categories_json [sanders]).
Proof.
  eexists. split; [vm_compute; reflexivity|].
  split_and!; vm_compute; reflexivity.
Qed.


Lemma early_stop_after_idle_streak_witness :
  exists st,
    @collect_categories_multiple_refreshes lib idle HOMEPAGE_URL 40 ∅
    = Stopped st
    /\ known st = []
    /\ new_total st = 0%Z
    /\ Z.of_nat (crawls (trace st)) = Z.max 0 (Z.min 40 STOP_AFTER_NO_NEW_STREAK).
Proof.
  apply (@early_stop_after_idle_streak lib idle HOMEPAGE_URL 40 ∅ []).
  - vm_compute. reflexivity.
  - intros j _. vm_compute. reflexivity.
Defined.

End DiscoveryExamples.

Section HarvestInvariantExamples.
Import ProductFetch Notions Sample.

Lemma harvest_store_grows_witness :
  exists st,
    after_pages two_pages link ∅ 1 = Finished st
    /\ store_ok (known_ids st) (all_products_by_id st)
    /\ (Z.of_nat (length (all_products_by_id st)) = 0 + total_new_added st)%Z.
Proof.
  destruct (start two_pages link ∅) as [[st0 urls]|e] eqn:Hs;
    [|vm_compute in Hs; discriminate].
  destruct (after_pages two_pages link ∅ 1) as [st|e files evs] eqn:Ha;
    [|vm_compute in Ha; discriminate].
  exists st. split; [reflexivity|].
  destruct (harvest_store_grows two_pages link ∅ 1 st0 st urls Hs Ha)
    as (Hok & _ & Hlen).
  split; [exact Hok|].
  vm_compute in Hs. injection Hs as <- _. exact Hlen.
Defined.

(** The pages index on disk is a list: the first page with products
    stops the run. *)
Lemma pages_index_type_error_witness :
  exists events,
    page_step two_pages 1 base_url (mkHarvest ∅ [] (JArr []) 0 ∅ [])
    = Crashed TypeError ∅ events.
Proof.
  apply (pages_index_type_error two_pages 1 base_url
           (mkHarvest ∅ [] (JArr []) 0 ∅ []) [item "A"] ["A"] 1).
  - exact I.
  - vm_compute. reflexivity.
  - discriminate.
Defined.

End HarvestInvariantExamples.

(** ** Trimmed identities *)

Section Trimming.
Import ProductFetch.
Variable f : ascii -> bool.

Lemma lstrip_lstrip s : Py.lstrip_by f (Py.lstrip_by f s) = Py.lstrip_by f s.
Proof.
  induction s as [|c s IH]; [done|]. simpl.
  destruct (f c) eqn:Hc; [done|]. simpl. by rewrite Hc.
Qed.

Lemma rev_onto_rev s : forall acc acc',
  Py.rev_onto (Py.rev_onto s acc) acc' = Py.rev_onto acc (s ++ acc').
Proof.
  induction s as [|c s IH]; intros acc acc'; [done|].
  simpl. by rewrite IH.
Qed.

Lemma rev_rev s : Py.rev (Py.rev s) = s.
Proof. unfold Py.rev. rewrite rev_onto_rev. simpl. apply append_nil_r. Qed.

Lemma rev_onto_acc s : forall acc, Py.rev_onto s acc = Py.rev s ++ acc.
Proof.
  unfold Py.rev. induction s as [|c s IH]; intros acc; [done|]. simpl.
  rewrite (IH (String c acc)), (IH (String c "")).
  by rewrite append_assoc.
Qed.

Lemma lstrip_app x y :
  Py.lstrip_by f (x ++ y)
  = match Py.lstrip_by f x with
    | EmptyString => Py.lstrip_by f y
    | z => z ++ y
    end.
Proof.
  induction x as [|c x IH]; [done|]. simpl.
  destruct (f c); [done|]. done.
Qed.

Lemma rstrip_rstrip s : Py.rstrip_by f (Py.rstrip_by f s) = Py.rstrip_by f s.
Proof. unfold Py.rstrip_by. by rewrite rev_rev, lstrip_lstrip. Qed.

(** [rstrip] on a text that begins with [c]. *)
Lemma rstrip_cons c r :
  Py.rstrip_by f (String c r)
  = match Py.rstrip_by f r with
    | EmptyString => if f c then "" else String c ""
    | z => String c z
    end.
Proof.
  unfold Py.rstrip_by.
  change (Py.rev (String c r)) with (Py.rev_onto r (String c "")).
  rewrite rev_onto_acc, lstrip_app.
  destruct (Py.lstrip_by f (Py.rev r)) as [|d z] eqn:Hz.
  - simpl. by destruct (f c).
  - change (String d z ++ String c "") with (String d (z ++ String c "")).
    pose proof (rev_snoc (String d z) c) as Hr.
    change (String d z ++ String c "") with (String d (z ++ String c ""))
      in Hr.
    rewrite Hr.
    destruct (Py.rev (String d z)) eqn:Hd; [|done].
    apply (f_equal Py.rev) in Hd. by rewrite rev_rev in Hd.
Qed.

Lemma lstrip_rstrip_lstrip s :
  Py.lstrip_by f (Py.rstrip_by f (Py.lstrip_by f s))
  = Py.rstrip_by f (Py.lstrip_by f s).
Proof.
  induction s as [|c s IH]; [done|]. simpl.
  destruct (f c) eqn:Hc; [done|].
  rewrite rstrip_cons. rewrite Hc.
  destruct (Py.rstrip_by f s); simpl; by rewrite Hc.
Qed.

Lemma strip_by_idempotent s :
  Py.strip_by f (Py.strip_by f s) = Py.strip_by f s.
Proof.
  unfold Py.strip_by. by rewrite lstrip_rstrip_lstrip, rstrip_rstrip.
Qed.

End Trimming.

Section TrimmedIdentity.
Import ProductFetch.

(** X19.  An identity is trimmed: whatever [get_product_id] returns has no
    blank at either end, so that trimming it again changes nothing. *)
Theorem get_product_id_trimmed (product : json) (pid : string) :
  get_product_id product = Ok pid -> Py.strip pid = pid.
Proof.
  assert (Hg : forall field fields s,
            get_stripped field fields = Ok s -> Py.strip s = s).
  { intros field fields s. unfold get_stripped.
    destruct (Json.truthy _); [|by intros [= <-]].
    destruct (Json.get field fields); try done.
    intros [= <-]. apply strip_by_idempotent. }
  destruct product as [| | | | | |fields]; try done. simpl.
  destruct (get_stripped "data_item_id" fields) as [id|] eqn:Hid;
    simpl; [|done].
  destruct (String.eqb id ""); simpl.
  - destruct (get_stripped "data_sku_simple" fields) as [sku|]; simpl;
      [|done].
    destruct (String.eqb sku ""); simpl; intros [= <-]; [done|].
    apply strip_by_idempotent.
  - intros [= <-]. by apply (Hg _ _ _ Hid).
Qed.

End TrimmedIdentity.

Section TrimmedIdentityExamples.
Import ProductFetch.

Lemma get_product_id_trimmed_witness : Py.strip "424381164" = "424381164".
Proof.
  apply (get_product_id_trimmed
           (JObj [("data_item_id", JStr "");
                  ("data_sku_simple", JStr " 424381164_BD-2071091963 ")])).
  reflexivity.
Defined.

End TrimmedIdentityExamples.

(** ** Category records *)

Section CategoryRecords.
Import RetrieveCategory CategoryDiscovery Notions.
Context `{PyLib}.

Lemma dedupe_by_key_loop records : forall seen,
  exists kept,
    CategoryDiscovery.dedupe_loop records seen = List.map fst kept
    /\ sublist kept records
    /\ NoDup (List.map snd kept)
    /\ (forall k, k ∈ List.map snd kept -> k <> "" /\ k ∉ seen)
    /\ (forall c k, (c, k) ∈ records -> k <> "" ->
                    k ∈ seen \/ k ∈ List.map snd kept)
    /\ (forall c k, (c, k) ∈ kept ->
          exists before after,
            records = (before ++ (c, k) :: after)%list
            /\ k ∉ List.map snd before).
Proof.
  induction records as [|[rec key] r IH]; intros seen.
  - exists []. simpl.
    split_and!; [done|constructor|constructor|..]; intros;
      match goal with Hin : _ ∈ [] |- _ => by apply elem_of_nil in Hin end.
  - simpl.
    destruct (String.eqb_spec key "") as [->|Hne]; simpl.
    { destruct (IH seen) as (kept & -> & Hsub & Hnd & Hk & Hcov & Hfirst).
      exists kept. split_and!; try done.
      - by apply sublist_cons.
      - intros c k [[= -> ->]|Hin]%elem_of_cons Hk'; [done|].
        by apply (Hcov c).
      - intros c k Hin.
        destruct (Hfirst c k Hin) as (before & after & -> & Hb).
        exists ((rec, "") :: before), after. split; [done|].
        simpl. intros [->|Hin']%elem_of_cons; [|done].
        destruct (Hk "") as [Hne _]; [|done].
        apply list_elem_of_fmap. by exists (c, ""). }
    destruct (decide (key ∈ seen)) as [Hs|Hs].
    { rewrite bool_decide_eq_true_2 by done.
      destruct (IH seen) as (kept & -> & Hsub & Hnd & Hk & Hcov & Hfirst).
      exists kept. split_and!; try done.
      - by apply sublist_cons.
      - intros c k [[= -> ->]|Hin]%elem_of_cons Hk'; [by left|].
        by apply (Hcov c).
      - intros c k Hin.
        destruct (Hfirst c k Hin) as (before & after & -> & Hb).
        exists ((rec, key) :: before), after. split; [done|].
        simpl. intros [->|Hin']%elem_of_cons; [|done].
        destruct (Hk key) as [_ Hns]; [|done].
        apply list_elem_of_fmap. by exists (c, key). }
    rewrite bool_decide_eq_false_2 by done.
    destruct (IH ({[key]} ∪ seen))
      as (kept & -> & Hsub & Hnd & Hk & Hcov & Hfirst).
    exists ((rec, key) :: kept). split_and!.
    + done.
    + by apply sublist_skip.
    + simpl. apply NoDup_cons. split; [|done].
      intros Hin. apply Hk in Hin as [_ Hin]. apply Hin.
      apply elem_of_union. left. by apply elem_of_singleton.
    + simpl. intros k [->|Hin]%elem_of_cons; [done|].
      apply Hk in Hin as [? Hin]. split; [done|].
      intros Hs'. apply Hin. apply elem_of_union. by right.
    + simpl. intros c k [[= -> ->]|Hin]%elem_of_cons Hk'.
      * right. apply elem_of_cons. by left.
      * destruct (Hcov c k Hin Hk') as [Hs'|Hi].
        -- apply elem_of_union in Hs' as [->%elem_of_singleton|Hs'];
             [right; apply elem_of_cons; by left|by left].
        -- right. apply elem_of_cons. by right.
    + intros c k [[= -> ->]|Hin]%elem_of_cons.
      * exists [], r. split; [done|]. simpl. apply not_elem_of_nil.
      * destruct (Hfirst c k Hin) as (before & after & -> & Hb).
        exists ((rec, key) :: before), after. split; [done|].
        simpl. intros [->|Hin']%elem_of_cons; [|done].
        assert (Hkk : key ∈ List.map snd kept).
        { apply list_elem_of_fmap. by exists (c, key). }
        apply Hk in Hkk as [_ Hkk]. apply Hkk.
        apply elem_of_union. left. by apply elem_of_singleton.
Qed.

(** X20.  [dedupe_by_key] keeps, in the input's order, one record for
    every key of the input that is not empty: the first one with that key.
    No key is kept twice and a record with an empty key is dropped. *)
Theorem dedupe_by_key_spec (records : list (Category * string)) :
  exists kept,
    dedupe_by_key records = List.map fst kept
    /\ sublist kept records
    /\ NoDup (List.map snd kept)
    /\ ("" ∉ List.map snd kept)
    /\ (forall c k, (c, k) ∈ records -> k <> "" -> k ∈ List.map snd kept)
    /\ (forall c k, (c, k) ∈ kept ->
          exists before after,
            records = (before ++ (c, k) :: after)%list
            /\ k ∉ List.map snd before).
Proof.
  destruct (dedupe_by_key_loop records ∅)
    as (kept & Heq & Hsub & Hnd & Hk & Hcov & Hfirst).
  exists kept. split_and!; try done.
  - intros Hin. by apply Hk in Hin as [? _].
  - intros c k Hin Hne. destruct (Hcov c k Hin Hne) as [Hs|]; [|done].
    by apply elem_of_empty in Hs.
Qed.



Lemma urlunparse_nonempty scheme netloc url params query fragment :
  scheme <> "" ->
  Urllib.urlunparse scheme netloc url params query fragment <> "".
Proof.
  intros Hs. unfold Urllib.urlunparse, Urllib.urlunsplit.
  apply String.eqb_neq in Hs. rewrite Hs. cbv zeta. cbn [negb].
  apply String.eqb_neq in Hs.
  repeat match goal with
         | |- context [if ?b then _ else _] => destruct b
         end;
    intros Hn;
    repeat (apply string_app_nil_inv in Hn as [Hn _]); done.
Qed.

Lemma canonical_nonempty base href canonical key :
  canonicalize_category_link base href = Some (canonical, key) ->
  href <> "" ->
  canonical <> "" /\ key <> "".
Proof.
  unfold canonicalize_category_link. intros Hc Hne.
  apply String.eqb_neq in Hne. rewrite Hne in Hc.
  destruct (Urllib.urljoin base _) as [absolute|]; simpl in Hc; [|done].
  destruct (Urllib.urldefrag absolute) as [absolute'|]; simpl in Hc; [|done].
  destruct (Urllib.urlparse absolute' "") as [p|]; simpl in Hc; [|done].
  injection Hc as <- <-. split.
  - apply urlunparse_nonempty. by destruct (String.eqb_spec (Urllib.scheme p) "").
  - match goal with
    | |- context [normalize_path ?x] =>
        pose proof (normalize_normal x) as [Hn _];
        generalize dependent (normalize_path x)
    end.
    intros path_norm Hn.
    destruct (negb _); intros Hk.
    + apply string_app_nil_inv in Hk as [Hk _].
      by apply string_app_nil_inv in Hk as [_ Hk].
    + by apply string_app_nil_inv in Hk as [_ Hk].
Qed.

(** X22.  [canonical_category_record] drops an item, returning
    [({}, "")], only for a blank name or a missing link: the canonicalizer
    gives an empty URL or an empty key for the empty [href] alone, so an
    item with a name and a link is never dropped. *)
Theorem canonical_record_dropped (base : string)
        (fields : list (string * json)) :
  canonical_category_record base (JObj fields) = Ok None ->
  exists name href,
    first_truthy ["category_name"; "name"; "title"] fields = JStr name
    /\ first_truthy ["category_link"; "link"; "url"] fields = JStr href
    /\ (Py.strip name = "" \/ href = "").
Proof.
  unfold canonical_category_record, canonicalize_value.
  destruct (first_truthy ["category_name"; "name"; "title"] fields)
    as [| | | |name| |]; try done.
  destruct (first_truthy ["category_link"; "link"; "url"] fields)
    as [| | | |href| |]; try done.
  cbn [as_text mbind result_bind].
  destruct (canonicalize_category_link base href) as [[canonical key]|] eqn:Hc;
    [|done].
  cbn [of_option mbind result_bind].
  destruct (String.eqb_spec (Py.strip name) "") as [Hn|Hn]; cbn [orb].
  { intros _. exists name, href. split_and!; [done|done|by left]. }
  destruct (String.eqb_spec href "") as [->|Hh].
  { intros _. exists name, "". split_and!; [done|done|by right]. }
  destruct (canonical_nonempty _ _ _ _ Hc Hh) as [Hc1 Hc2].
  apply String.eqb_neq in Hc1, Hc2. by rewrite Hc1, Hc2.
Qed.

End CategoryRecords.

Section CategoryRecordExamples.
Import RetrieveCategory CategoryDiscovery Sample.

Lemma canonical_record_dropped_witness :
  exists name href,
    first_truthy ["category_name"; "name"; "title"]
      [("name", JStr "  "); ("url", JStr "/sanders")] = JStr name
    /\ first_truthy ["category_link"; "link"; "url"]
         [("name", JStr "  "); ("url", JStr "/sanders")] = JStr href
    /\ (Py.strip name = "" \/ href = "").
Proof.
  apply (canonical_record_dropped "https://www.daraz.com.bd/").
  vm_compute. reflexivity.
Defined.

End CategoryRecordExamples.

(** ** The refresh budget *)

Section RefreshBudget.
Import CategoryDiscovery Notions.
Context `{PyLib}.
Variables (world : Z -> Refresh) (home_url : string).

(** X23.  The refresh budget is kept: a discovery run that stops has
    crawled the homepage at most [refreshes] times, and not at all when
    [refreshes] is zero or less, in which case nothing is written either. *)
Theorem discovery_budget (refreshes : Z) (disk0 : gmap string json)
        (st : Discovery) :
  collect_categories_multiple_refreshes world home_url refreshes disk0
  = Stopped st ->
  (crawls (trace st) <= Z.to_nat refreshes)%nat
  /\ ((refreshes <= 0)%Z -> trace st = [] /\ files st = disk0).
Proof.
  unfold collect_categories_multiple_refreshes.
  destruct (reload _ _ _) as [known0|e]; [|done].
  intros Hl. split.
  - pose proof (refresh_loop_spec world home_url (Z.to_nat refreshes) 1
                  (mkDiscovery known0 0 0 disk0 [])) as Hs.
    rewrite Hl in Hs. by destruct Hs as (_ & _ & Hc).
  - intros Hr. replace (Z.to_nat refreshes) with O in Hl by lia.
    simpl in Hl. by injection Hl as <-.
Qed.

End RefreshBudget.

Section RefreshBudgetExamples.
Import CategoryDiscovery Notions SampleCategories.

Lemma discovery_budget_witness :
  exists st,
    @collect_categories_multiple_refreshes lib one_tile HOMEPAGE_URL 1 ∅
    = Stopped st
    /\ (crawls (trace st) <= 1)%nat.
Proof.
  destruct (@collect_categories_multiple_refreshes lib one_tile HOMEPAGE_URL
              1 ∅) as [st|st|e disk evs] eqn:Hc;
    [vm_compute in Hc; discriminate| |vm_compute in Hc; discriminate].
  exists st. split; [reflexivity|].
  apply (@discovery_budget lib one_tile HOMEPAGE_URL 1 ∅ st Hc).
Defined.

End RefreshBudgetExamples.
